(** * cre-tradingbot-service: the request path of the trading-bot workflow

    A shallow embedding of [services/llm-service.ts] and [main.ts]:
    the base64 codec, the model gateway ([sendRequest]), the decision
    helper ([getTradingDecisions]), the callback forwarder
    ([sendToServer]) and the HTTP-trigger handler ([onHttpTrigger]),
    together with the part of the JavaScript runtime they rely on
    (JSON values, property access, truthiness, string conversion,
    [JSON.parse], [JSON.stringify]).

    Conventions.
    - A JavaScript string is kept as its UTF-8 text (a Rocq [string]);
      [TextEncoder.encode] is then the list of its bytes and
      [TextDecoder.decode] the text of a body.
    - A [Uint8Array] is a [list byte].
    - An exception is a value of [JSError]; code that can throw returns
      a [Result].
    - [runtime.log] only writes to the operator log.  Its argument is
      evaluated, because evaluating a template literal can throw, and the
      line itself is not kept.  A log line inside a [catch] block of the
      service prints the text of the caught error, which cannot throw,
      and is left out.
    - Bytes that are not well-formed UTF-8 and numbers that a double
      cannot hold exactly are outside the embedding. *)

From Stdlib Require Import List String Ascii NArith ZArith Lia Bool.
From Stdlib.Strings Require Import Byte.
From Stdlib Require Import DecimalString.
Import ListNotations.
Open Scope string_scope.

(* ================================================================== *)
(** ** Binary codec: [toBase64] (llm-service.ts, lines 13-32)          *)
(* ================================================================== *)

Module Base64.

Definition BASE64_CHARS : string :=
  "ABCDEFGHIJKLMNOPQRSTUVWXYZabcdefghijklmnopqrstuvwxyz0123456789+/".

(** [BASE64_CHARS[n]] as it is appended to [result]: indexing past the
    end of a string yields [undefined], which [+=] spells out. *)
Definition char_at (n : N) : string :=
  match String.get (N.to_nat n) BASE64_CHARS with
  | Some c => String c EmptyString
  | None => "undefined"
  end.

(** [bytes[i]] for an index the loop has checked to be in range. *)
Definition byte_at (bytes : list byte) (i : nat) : N :=
  Byte.to_N (nth i bytes Byte.x00).

(** One pass through the loop body, lines 21-28. *)
Definition group (bytes : list byte) (i : nat) : string :=
  let len := List.length bytes in
  let b1 := byte_at bytes i in
  let b2 := if (i + 1 <? len)%nat then byte_at bytes (i + 1) else 0%N in
  let b3 := if (i + 2 <? len)%nat then byte_at bytes (i + 2) else 0%N in
  char_at (N.shiftr b1 2)
  ++ char_at (N.lor (N.shiftl (N.land b1 3) 4) (N.shiftr b2 4))
  ++ (if (i + 1 <? len)%nat
      then char_at (N.lor (N.shiftl (N.land b2 15) 2) (N.shiftr b3 6))
      else "=")
  ++ (if (i + 2 <? len)%nat then char_at (N.land b3 63) else "=").

(** [for (let i = 0; i < len; i += 3)]: [fuel] bounds the number of
    passes; [length bytes] passes are always enough. *)
Fixpoint toBase64_loop (fuel : nat) (bytes : list byte) (i : nat)
    (result : string) : string :=
  match fuel with
  | O => result
  | S fuel' =>
      if (i <? List.length bytes)%nat
      then toBase64_loop fuel' bytes (i + 3) (result ++ group bytes i)
      else result
  end.

Definition toBase64 (bytes : list byte) : string :=
  toBase64_loop (List.length bytes) bytes 0 "".

(** *** Reference: the RFC 4648 section 4 encoding and decoding *)

(** The encoding written group by group, as RFC 4648 describes it: three
    octets give four symbols, a final group of one octet gives two
    symbols and [==], a final group of two gives three symbols and [=]. *)
Definition quad1 (b1 : N) : string :=
  char_at (N.shiftr b1 2) ++ char_at (N.shiftl (N.land b1 3) 4) ++ "==".

Definition quad2 (b1 b2 : N) : string :=
  char_at (N.shiftr b1 2)
  ++ char_at (N.lor (N.shiftl (N.land b1 3) 4) (N.shiftr b2 4))
  ++ char_at (N.shiftl (N.land b2 15) 2) ++ "=".

Definition quad3 (b1 b2 b3 : N) : string :=
  char_at (N.shiftr b1 2)
  ++ char_at (N.lor (N.shiftl (N.land b1 3) 4) (N.shiftr b2 4))
  ++ char_at (N.lor (N.shiftl (N.land b2 15) 2) (N.shiftr b3 6))
  ++ char_at (N.land b3 63).

Fixpoint rfc4648_encode (bytes : list byte) : string :=
  match bytes with
  | [] => ""
  | [b1] => quad1 (Byte.to_N b1)
  | [b1; b2] => quad2 (Byte.to_N b1) (Byte.to_N b2)
  | b1 :: b2 :: b3 :: rest =>
      quad3 (Byte.to_N b1) (Byte.to_N b2) (Byte.to_N b3) ++ rfc4648_encode rest
  end.

(** The value of a symbol of the alphabet. *)
Fixpoint index_from (c : ascii) (alphabet : string) (n : N) : option N :=
  match alphabet with
  | EmptyString => None
  | String a rest => if Ascii.eqb a c then Some n else index_from c rest (n + 1)
  end.

Definition sextet (c : ascii) : option N := index_from c BASE64_CHARS 0.

Definition is_pad (c : ascii) : bool := Ascii.eqb c "=".

Definition is_empty (s : string) : bool :=
  match s with EmptyString => true | _ => false end.

(** One group of four symbols: [last] tells whether the text ends with
    it, [tail] is what the rest of the text decodes to.  Padding is
    accepted only in the last group, and a final group whose unused bits
    are not zero is rejected (the canonical form of RFC 4648, 3.5). *)
Definition decode_group (c1 c2 c3 c4 : ascii) (last : bool)
    (tail : option (list byte)) : option (list byte) :=
  match sextet c1, sextet c2 with
  | Some v1, Some v2 =>
      let o1 := Byte.of_N (N.lor (N.shiftl v1 2) (N.shiftr v2 4)) in
      if is_pad c3 then
        if is_pad c4 && last && N.eqb (N.land v2 15) 0
        then match o1 with Some x1 => Some [x1] | None => None end
        else None
      else
        match sextet c3 with
        | Some v3 =>
            let o2 :=
              Byte.of_N (N.lor (N.shiftl (N.land v2 15) 4) (N.shiftr v3 2)) in
            if is_pad c4 then
              if last && N.eqb (N.land v3 3) 0
              then match o1, o2 with
                   | Some x1, Some x2 => Some [x1; x2]
                   | _, _ => None
                   end
              else None
            else
              match sextet c4 with
              | Some v4 =>
                  let o3 := Byte.of_N (N.lor (N.shiftl (N.land v3 3) 6) v4) in
                  match o1, o2, o3, tail with
                  | Some x1, Some x2, Some x3, Some bytes =>
                      Some (x1 :: x2 :: x3 :: bytes)
                  | _, _, _, _ => None
                  end
              | None => None
              end
        | None => None
        end
  | _, _ => None
  end.

(** The reference decoder: four symbols at a time. *)
Fixpoint rfc4648_decode (s : string) : option (list byte) :=
  match s with
  | EmptyString => Some []
  | String c1 (String c2 (String c3 (String c4 rest))) =>
      decode_group c1 c2 c3 c4 (is_empty rest) (rfc4648_decode rest)
  | _ => None
  end.

(** Does the text contain the padding symbol? *)
Fixpoint has_pad (s : string) : bool :=
  match s with
  | EmptyString => false
  | String c rest => is_pad c || has_pad rest
  end.

(** The end of the encoding [text] of [bytes], by the length of the
    input modulo three: no padding symbol at all; two padding symbols
    after text without any; one padding symbol after text without any. *)
Definition padding_of (bytes : list byte) (text : string) : Prop :=
  match (List.length bytes mod 3)%nat with
  | 0%nat => has_pad text = false
  | 1%nat => exists p, text = p ++ "==" /\ has_pad p = false
  | _ => exists p, text = p ++ "=" /\ has_pad p = false
  end.

(** *** Checks by enumeration *)

(** The numbers below [k]. *)
Definition below (k : nat) : list N := map N.of_nat (seq 0 k).

(** Index [n] selects one symbol, the symbol's value is [n], and the
    symbol is not the padding symbol. *)
Definition symbol_ok (n : N) : bool :=
  match char_at n with
  | String c EmptyString =>
      match sextet c with
      | Some m => N.eqb m n && negb (is_pad c)
      | None => false
      end
  | _ => false
  end.

(** How the bits of three octets are spread over four sextets. *)
Definition split1_ok (b1 x : N) : bool :=
  let v1 := N.shiftr b1 2 in
  let v2 := N.lor (N.shiftl (N.land b1 3) 4) x in
  N.eqb (N.lor (N.shiftl v1 2) (N.shiftr v2 4)) b1
  && N.eqb (N.land v2 15) x && N.ltb v1 64 && N.ltb v2 64.

Definition split2_ok (b2 y : N) : bool :=
  let v3 := N.lor (N.shiftl (N.land b2 15) 2) y in
  N.eqb (N.lor (N.shiftl (N.shiftr b2 4) 4) (N.shiftr v3 2)) b2
  && N.eqb (N.land v3 3) y && N.ltb v3 64 && N.ltb (N.shiftr b2 4) 16.

Definition split3_ok (b3 : N) : bool :=
  N.eqb (N.lor (N.shiftl (N.shiftr b3 6) 6) (N.land b3 63)) b3
  && N.ltb (N.land b3 63) 64 && N.ltb (N.shiftr b3 6) 4.

End Base64.

(* ================================================================== *)
(** ** The JavaScript runtime the sources rely on                      *)
(* ================================================================== *)

Module JS.

(** *** Exceptions *)

(** An [Error] object: its [name] and its [message]. *)
Record JSError : Type := mkError { err_name : string; err_message : string }.

Definition Result (A : Type) : Type := (JSError + A)%type.

Definition ret {A : Type} (a : A) : Result A := inr a.
Definition throw {A : Type} (e : JSError) : Result A := inl e.

Definition bind {A B : Type} (m : Result A) (k : A -> Result B) : Result B :=
  match m with
  | inl e => inl e
  | inr a => k a
  end.

Declare Scope js_scope.
Delimit Scope js_scope with js.
Notation "x <- m ;; k" := (bind m (fun x => k))
  (at level 61, m at next level, right associativity) : js_scope.
Notation "m ;;; k" := (bind m (fun _ => k))
  (at level 61, right associativity) : js_scope.

(** The wording of the engine's own errors is not fixed by the language;
    the texts below stand for it. *)
Definition SyntaxError (message : string) : JSError := mkError "SyntaxError" message.
Definition TypeError (message : string) : JSError := mkError "TypeError" message.

Definition is_empty (s : string) : bool :=
  match s with EmptyString => true | _ => false end.

(** [Error.prototype.toString]. *)
Definition Error_toString (e : JSError) : string :=
  if is_empty (err_name e) then err_message e
  else if is_empty (err_message e) then err_name e
  else err_name e ++ ": " ++ err_message e.

(** [error.message || String(error)], and the text of
    [`${error.message || error}`]. *)
Definition error_text (e : JSError) : string :=
  if is_empty (err_message e) then Error_toString e else err_message e.

(** *** Numbers *)

(** A number read from JSON text, kept as the exact decimal it denotes:
    [(-1)^neg * 0.d1 d2 ... dk * 10^point], where the digits [d1 ... dk]
    have neither a leading nor a trailing zero and zero has no digit.
    This is the triple [(s, k, n)] of [Number::toString].  Rounding to a
    double (a literal of more than 15 significant digits, or one out of
    the range of doubles) is not modelled. *)
Record JSNumber : Type :=
  mkNumber { num_neg : bool; num_digits : string; num_point : Z }.

Definition is_digit (c : ascii) : bool :=
  (48 <=? N_of_ascii c)%N && (N_of_ascii c <=? 57)%N.

Definition digit_value (c : ascii) : N := (N_of_ascii c - 48)%N.

Fixpoint digits_value (acc : N) (s : string) : N :=
  match s with
  | EmptyString => acc
  | String c rest => digits_value (10 * acc + digit_value c)%N rest
  end.

Fixpoint strip_leading_zeros (s : string) : string :=
  match s with
  | String c rest => if Ascii.eqb c "0" then strip_leading_zeros rest else s
  | EmptyString => EmptyString
  end.

Fixpoint strip_trailing_zeros (s : string) : string :=
  match s with
  | EmptyString => EmptyString
  | String c rest =>
      match strip_trailing_zeros rest with
      | EmptyString => if Ascii.eqb c "0" then EmptyString else String c EmptyString
      | rest' => String c rest'
      end
  end.

(** The number denoted by the literal [int.frac e exp]. *)
Definition make_number (neg : bool) (int frac : string) (exp : Z) : JSNumber :=
  let all := int ++ frac in
  let significant := strip_leading_zeros all in
  let zeros := (String.length all - String.length significant)%nat in
  match strip_trailing_zeros significant with
  | EmptyString => mkNumber neg EmptyString 0
  | digits => mkNumber neg digits (Z.of_nat (String.length int) - Z.of_nat zeros + exp)
  end.

Definition decimal_of_N (n : N) : string := NilZero.string_of_uint (N.to_uint n).

Definition number_of_N (n : N) : JSNumber := make_number false (decimal_of_N n) "" 0.

Definition number_of_nat (n : nat) : JSNumber := number_of_N (N.of_nat n).

Fixpoint zeros (n : nat) : string :=
  match n with
  | O => EmptyString
  | S n' => String "0" (zeros n')
  end.

(** [Number::toString] in radix 10, steps 5 to 10 of the algorithm. *)
Definition positive_toString (digits : string) (n : Z) : string :=
  let k := Z.of_nat (String.length digits) in
  if ((k <=? n) && (n <=? 21))%Z then
    digits ++ zeros (Z.to_nat (n - k))
  else if ((0 <? n) && (n <=? 21))%Z then
    substring 0 (Z.to_nat n) digits ++ "."
    ++ substring (Z.to_nat n) (Z.to_nat (k - n)) digits
  else if ((-6 <? n) && (n <=? 0))%Z then
    "0." ++ zeros (Z.to_nat (- n)) ++ digits
  else
    let e := (n - 1)%Z in
    let sign := if (e <? 0)%Z then "-" else "+" in
    let mantissa :=
      match digits with
      | String d EmptyString => String d EmptyString
      | String d rest => String d ("." ++ rest)
      | EmptyString => EmptyString
      end in
    mantissa ++ "e" ++ sign ++ decimal_of_N (Z.abs_N e).

Definition Number_toString (x : JSNumber) : string :=
  if is_empty (num_digits x) then "0"
  else (if num_neg x then "-" else "") ++ positive_toString (num_digits x) (num_point x).

(** *** Values *)

(** The values [JSON.parse] can produce.  [undefined] only arises as the
    result of a property access and is the [None] of an [option]. *)
#[local] Unset Elimination Schemes.
Inductive JSValue : Type :=
  | JNull
  | JBool (b : bool)
  | JNum (n : JSNumber)
  | JStr (s : string)
  | JArr (elems : list JSValue)
  | JObj (props : list (string * JSValue)).
#[local] Set Elimination Schemes.

(** *** Ordinary objects: own properties in enumeration order *)

(** An array index is the canonical text of an integer below [2^32 - 1]. *)
Definition array_index (k : string) : option N :=
  match k with
  | EmptyString => None
  | String c rest =>
      if forallb is_digit (list_ascii_of_string k)
         && (is_empty rest || negb (Ascii.eqb c "0"))
         && (String.length k <=? 10)%nat
         && (digits_value 0 k <? 4294967295)%N
      then Some (digits_value 0 k)
      else None
  end.

Section Properties.
Context {A : Type}.

Fixpoint obj_get (k : string) (props : list (string * A)) : option A :=
  match props with
  | [] => None
  | (k', v) :: rest => if String.eqb k' k then Some v else obj_get k rest
  end.

Definition obj_has (k : string) (props : list (string * A)) : bool :=
  match obj_get k props with Some _ => true | None => false end.

Fixpoint obj_replace (k : string) (v : A) (props : list (string * A))
    : list (string * A) :=
  match props with
  | [] => []
  | (k', v') :: rest =>
      if String.eqb k' k then (k', v) :: rest
      else (k', v') :: obj_replace k v rest
  end.

Fixpoint obj_insert_index (i : N) (k : string) (v : A)
    (props : list (string * A)) : list (string * A) :=
  match props with
  | [] => [(k, v)]
  | (k', v') :: rest =>
      match array_index k' with
      | Some j =>
          if (j <? i)%N then (k', v') :: obj_insert_index i k v rest
          else (k, v) :: props
      | None => (k, v) :: props
      end
  end.

(** Defining or assigning own property [k]: an existing property keeps
    its place; a new one is enumerated after the others, except that
    array indices come first, in ascending order. *)
Definition obj_set (props : list (string * A)) (k : string) (v : A)
    : list (string * A) :=
  if obj_has k props then obj_replace k v props
  else match array_index k with
       | Some i => obj_insert_index i k v props
       | None => props ++ [(k, v)]
       end.

(** Spreading [source] into an object, [{ ...target, ...source }]. *)
Definition obj_spread (target source : list (string * A)) : list (string * A) :=
  fold_left (fun acc kv => obj_set acc (fst kv) (snd kv)) source target.
End Properties.

(** *** Equality of values *)

Definition JSNumber_eqb (x y : JSNumber) : bool :=
  Bool.eqb (num_neg x) (num_neg y)
  && String.eqb (num_digits x) (num_digits y)
  && Z.eqb (num_point x) (num_point y).

(** Two values are identical when they are built alike, part by part. *)
Fixpoint JSValue_eqb (a b : JSValue) : bool :=
  match a, b with
  | JNull, JNull => true
  | JBool x, JBool y => Bool.eqb x y
  | JNum x, JNum y => JSNumber_eqb x y
  | JStr x, JStr y => String.eqb x y
  | JArr xs, JArr ys =>
      (fix elems_eqb (l m : list JSValue) : bool :=
         match l, m with
         | [], [] => true
         | x :: l', y :: m' => JSValue_eqb x y && elems_eqb l' m'
         | _, _ => false
         end) xs ys
  | JObj ps, JObj qs =>
      (fix props_eqb (l m : list (string * JSValue)) : bool :=
         match l, m with
         | [], [] => true
         | (j, x) :: l', (k, y) :: m' =>
             String.eqb j k && JSValue_eqb x y && props_eqb l' m'
         | _, _ => false
         end) ps qs
  | _, _ => false
  end.

(** *** Truthiness *)

Definition truthy (v : JSValue) : bool :=
  match v with
  | JNull => false
  | JBool b => b
  | JNum n => negb (is_empty (num_digits n))
  | JStr s => negb (is_empty s)
  | JArr _ => true
  | JObj _ => true
  end.

Definition truthy_opt (o : option JSValue) : bool :=
  match o with
  | None => false
  | Some v => truthy v
  end.

(** *** Text as UTF-16: length and iteration *)

Definition is_continuation (c : ascii) : bool :=
  (128 <=? N_of_ascii c)%N && (N_of_ascii c <? 192)%N.

(** The number of UTF-16 code units of a text: one per code point, two
    for a code point outside the basic plane (a four-byte sequence). *)
Fixpoint utf16_length (s : string) : nat :=
  match s with
  | EmptyString => O
  | String c rest =>
      (if is_continuation c then 0
       else if (240 <=? N_of_ascii c)%N then 2 else 1) + utf16_length rest
  end.

Fixpoint code_points_from (current : string) (s : string) : list string :=
  match s with
  | EmptyString => [current]
  | String c rest =>
      if is_continuation c
      then code_points_from (current ++ String c EmptyString) rest
      else current :: code_points_from (String c EmptyString) rest
  end.

(** The code points of a text, which is what iterating a string yields. *)
Definition code_points (s : string) : list string :=
  match s with
  | EmptyString => []
  | String c rest => code_points_from (String c EmptyString) rest
  end.

(** *** Property access *)

(** [v.k] or [v[k]], for a property name [k] that the built-in prototypes
    do not define; every name the sources read ([model], [messages],
    [error], [choices], [0], [message], [content], [trade_decisions],
    [length], [asset], [action], [allocation_usd], [success]) is such a
    name.  Reading a property of [null] throws.  An index into a text
    outside the basic plane yields a code point where the engine yields
    a surrogate half; the sources only test such a result for presence. *)
Definition get (v : JSValue) (k : string) : Result (option JSValue) :=
  match v with
  | JNull => throw (TypeError ("cannot read property '" ++ k ++ "' of null"))
  | JBool _ => ret None
  | JNum _ => ret None
  | JStr s =>
      if String.eqb k "length" then ret (Some (JNum (number_of_nat (utf16_length s))))
      else match array_index k with
           | Some i => ret (option_map JStr (nth_error (code_points s) (N.to_nat i)))
           | None => ret None
           end
  | JArr elems =>
      if String.eqb k "length" then ret (Some (JNum (number_of_nat (List.length elems))))
      else match array_index k with
           | Some i => ret (nth_error elems (N.to_nat i))
           | None => ret None
           end
  | JObj props => ret (obj_get k props)
  end.

(** Reading a property of [undefined] throws as well. *)
Definition get_opt (o : option JSValue) (k : string) : Result (option JSValue) :=
  match o with
  | None => throw (TypeError ("cannot read property '" ++ k ++ "' of undefined"))
  | Some v => get v k
  end.

(** *** Conversion to text *)

(** [ToString], as a template literal applies it.  An object is printed
    by [Object.prototype.toString] unless it has an own [toString]
    property; a value read from JSON is never callable, and then no
    method yields a primitive.  An array is printed by [join]. *)
Fixpoint ToString (v : JSValue) : Result string :=
  match v with
  | JNull => ret "null"
  | JBool b => ret (if b then "true" else "false")
  | JNum n => ret (Number_toString n)
  | JStr s => ret s
  | JArr elems =>
      (fix join (l : list JSValue) : Result string :=
         match l with
         | [] => ret ""
         | x :: rest =>
             bind (match x with JNull => ret "" | _ => ToString x end) (fun a =>
             match rest with
             | [] => ret a
             | _ => bind (join rest) (fun b => ret (a ++ "," ++ b))
             end)
         end) elems
  | JObj props =>
      if obj_has "toString" props
      then throw (TypeError "toPrimitive")
      else ret "[object Object]"
  end.

Definition ToString_opt (o : option JSValue) : Result string :=
  match o with
  | None => ret "undefined"
  | Some v => ToString v
  end.

(** [for (const x of v) body], for a [v] that is neither [null] nor
    [undefined]: arrays and texts are iterable, nothing else is. *)
Fixpoint for_each (l : list JSValue) (body : JSValue -> Result unit) : Result unit :=
  match l with
  | [] => ret tt
  | x :: rest => bind (body x) (fun _ => for_each rest body)
  end.

Definition for_of (v : JSValue) (body : JSValue -> Result unit) : Result unit :=
  match v with
  | JArr elems => for_each elems body
  | JStr s => for_each (map JStr (code_points s)) body
  | _ => throw (TypeError "value is not iterable")
  end.

End JS.

(* ================================================================== *)
(** ** [JSON.parse] and [JSON.stringify]                               *)
(* ================================================================== *)

Module JSON.
Import JS.

(** *** Reading *)

(** The quotation mark. *)
Definition dquote : ascii := "034"%char.

Definition is_ws (c : ascii) : bool :=
  let n := N_of_ascii c in
  (n =? 32)%N || (n =? 9)%N || (n =? 10)%N || (n =? 13)%N.

Fixpoint skip_ws (s : string) : string :=
  match s with
  | EmptyString => EmptyString
  | String c rest => if is_ws c then skip_ws rest else s
  end.

Fixpoint strip_prefix (p s : string) : option string :=
  match p with
  | EmptyString => Some s
  | String a p' =>
      match s with
      | String b s' => if Ascii.eqb a b then strip_prefix p' s' else None
      | EmptyString => None
      end
  end.

Fixpoint span_digits (s : string) : string * string :=
  match s with
  | EmptyString => (EmptyString, EmptyString)
  | String c rest =>
      if is_digit c
      then let (ds, r) := span_digits rest in (String c ds, r)
      else (EmptyString, s)
  end.

(** The exponent part of a number, if there is one. *)
Definition parse_exponent (s : string) : option (Z * string) :=
  match s with
  | String c rest =>
      if Ascii.eqb c "e" || Ascii.eqb c "E" then
        let (negative, rest1) :=
          match rest with
          | String sg r =>
              if Ascii.eqb sg "+" then (false, r)
              else if Ascii.eqb sg "-" then (true, r)
              else (false, rest)
          | EmptyString => (false, rest)
          end in
        let (ds, rest2) := span_digits rest1 in
        if is_empty ds then None
        else
          let e := Z.of_N (digits_value 0 ds) in
          Some (if negative then (- e)%Z else e, rest2)
      else Some (0%Z, s)
  | EmptyString => Some (0%Z, s)
  end.

(** The fraction part of a number, if there is one. *)
Definition parse_fraction (s : string) : option (string * string) :=
  match s with
  | String c rest =>
      if Ascii.eqb c "." then
        let (ds, rest1) := span_digits rest in
        if is_empty ds then None else Some (ds, rest1)
      else Some (EmptyString, s)
  | EmptyString => Some (EmptyString, s)
  end.

(** A number literal: an optional minus sign; an integer part, which is
    a single zero or starts with a digit other than zero; an optional
    fraction; an optional exponent. *)
Definition parse_number (s : string) : option (JSNumber * string) :=
  let (neg, s1) :=
    match s with
    | String c rest => if Ascii.eqb c "-" then (true, rest) else (false, s)
    | EmptyString => (false, s)
    end in
  let integer :=
    match s1 with
    | String c rest =>
        if Ascii.eqb c "0" then Some ("0", rest)
        else if is_digit c
        then let (ds, r) := span_digits rest in Some (String c ds, r)
        else None
    | EmptyString => None
    end in
  match integer with
  | Some (int, s2) =>
      match parse_fraction s2 with
      | Some (frac, s3) =>
          match parse_exponent s3 with
          | Some (e, s4) => Some (make_number neg int frac e, s4)
          | None => None
          end
      | None => None
      end
  | None => None
  end.

Definition hex_value (c : ascii) : option N :=
  let n := N_of_ascii c in
  if (48 <=? n)%N && (n <=? 57)%N then Some (n - 48)%N
  else if (65 <=? n)%N && (n <=? 70)%N then Some (n - 55)%N
  else if (97 <=? n)%N && (n <=? 102)%N then Some (n - 87)%N
  else None.

Definition hex4 (h1 h2 h3 h4 : ascii) : option N :=
  match hex_value h1, hex_value h2, hex_value h3, hex_value h4 with
  | Some a, Some b, Some c, Some d => Some (((a * 16 + b) * 16 + c) * 16 + d)%N
  | _, _, _, _ => None
  end.

Definition chr (n : N) : string := String (ascii_of_N n) EmptyString.

(** The UTF-8 text of a code point (of a lone surrogate, its
    three-byte form). *)
Definition utf8 (cp : N) : string :=
  if (cp <? 128)%N then chr cp
  else if (cp <? 2048)%N then
    chr (192 + N.shiftr cp 6) ++ chr (128 + N.land cp 63)
  else if (cp <? 65536)%N then
    chr (224 + N.shiftr cp 12) ++ chr (128 + N.land (N.shiftr cp 6) 63)
    ++ chr (128 + N.land cp 63)
  else
    chr (240 + N.shiftr cp 18) ++ chr (128 + N.land (N.shiftr cp 12) 63)
    ++ chr (128 + N.land (N.shiftr cp 6) 63) ++ chr (128 + N.land cp 63).

Definition is_high_surrogate (u : N) : bool := (55296 <=? u)%N && (u <? 56320)%N.
Definition is_low_surrogate (u : N) : bool := (56320 <=? u)%N && (u <? 57344)%N.

Definition prepend (p : string) (r : option (string * string))
    : option (string * string) :=
  match r with
  | Some (text, rest) => Some (p ++ text, rest)
  | None => None
  end.

(** The character an escape [\e] stands for, [\u] apart. *)
Definition simple_escape (e : ascii) : option string :=
  if Ascii.eqb e dquote then Some (String dquote EmptyString)
  else if Ascii.eqb e "\" then Some "\"
  else if Ascii.eqb e "/" then Some "/"
  else if Ascii.eqb e "b" then Some (chr 8)
  else if Ascii.eqb e "f" then Some (chr 12)
  else if Ascii.eqb e "n" then Some (chr 10)
  else if Ascii.eqb e "r" then Some (chr 13)
  else if Ascii.eqb e "t" then Some (chr 9)
  else None.

(** Does the text start with the escape of a low surrogate? *)
Definition low_surrogate_escape (s : string) : option N :=
  match s with
  | String b (String v (String l1 (String l2 (String l3 (String l4 _))))) =>
      if Ascii.eqb b "\" && Ascii.eqb v "u" then
        match hex4 l1 l2 l3 l4 with
        | Some w => if is_low_surrogate w then Some w else None
        | None => None
        end
      else None
  | _ => None
  end.

(** The escape [\u h1 h2 h3 h4], followed by [rest]: a high surrogate
    followed by the escape of a low one gives one code point and the
    text goes on after the pair ([after_pair]); any other code unit
    stands for itself and the text goes on after it ([after_unit]). *)
Definition unicode_escape (h1 h2 h3 h4 : ascii) (rest : string)
    (after_unit after_pair : unit -> option (string * string))
    : option (string * string) :=
  match hex4 h1 h2 h3 h4 with
  | Some u =>
      match (if is_high_surrogate u then low_surrogate_escape rest else None) with
      | Some w => prepend (utf8 (65536 + (u - 55296) * 1024 + (w - 56320))) (after_pair tt)
      | None => prepend (utf8 u) (after_unit tt)
      end
  | None => None
  end.

(** The characters of a string literal after its opening quote, up to
    and including the closing quote. *)
Fixpoint parse_chars (s : string) : option (string * string) :=
  match s with
  | EmptyString => None
  | String c rest =>
      if Ascii.eqb c dquote then Some (EmptyString, rest)
      else if Ascii.eqb c "\" then
        match rest with
        | EmptyString => None
        | String e rest1 =>
            if Ascii.eqb e "u" then
              match rest1 with
              | String h1 (String h2 (String h3 (String h4 rest2))) =>
                  unicode_escape h1 h2 h3 h4 rest2
                    (fun _ => parse_chars rest2)
                    (fun _ =>
                       match rest2 with
                       | String _ (String _ (String _ (String _ (String _ (String _ rest3))))) =>
                           parse_chars rest3
                       | _ => None
                       end)
              | _ => None
              end
            else
              match simple_escape e with
              | Some p => prepend p (parse_chars rest1)
              | None => None
              end
        end
      else if (N_of_ascii c <? 32)%N then None
      else prepend (String c EmptyString) (parse_chars rest)
  end.

(** A value, the elements of an array after [[], the members of an
    object after [{].  Every call spends one unit of [fuel]; at most two
    are spent for one character read. *)
Fixpoint parse_value (fuel : nat) (s : string) : option (JSValue * string) :=
  match fuel with
  | O => None
  | S fuel' =>
      match skip_ws s with
      | EmptyString => None
      | String c rest as s' =>
          if Ascii.eqb c "{" then
            match skip_ws rest with
            | String c' rest' =>
                if Ascii.eqb c' "}" then Some (JObj [], rest')
                else parse_members fuel' [] rest
            | EmptyString => None
            end
          else if Ascii.eqb c "[" then
            match skip_ws rest with
            | String c' rest' =>
                if Ascii.eqb c' "]" then Some (JArr [], rest')
                else parse_elements fuel' [] rest
            | EmptyString => None
            end
          else if Ascii.eqb c dquote then
            match parse_chars rest with
            | Some (text, rest') => Some (JStr text, rest')
            | None => None
            end
          else
            match strip_prefix "true" s', strip_prefix "false" s', strip_prefix "null" s' with
            | Some rest', _, _ => Some (JBool true, rest')
            | _, Some rest', _ => Some (JBool false, rest')
            | _, _, Some rest' => Some (JNull, rest')
            | None, None, None =>
                match parse_number s' with
                | Some (n, rest') => Some (JNum n, rest')
                | None => None
                end
            end
      end
  end

with parse_elements (fuel : nat) (acc : list JSValue) (s : string)
    : option (JSValue * string) :=
  match fuel with
  | O => None
  | S fuel' =>
      match parse_value fuel' s with
      | Some (v, rest) =>
          match skip_ws rest with
          | String c rest' =>
              if Ascii.eqb c "," then parse_elements fuel' (acc ++ [v]) rest'
              else if Ascii.eqb c "]" then Some (JArr (acc ++ [v]), rest')
              else None
          | EmptyString => None
          end
      | None => None
      end
  end

with parse_members (fuel : nat) (acc : list (string * JSValue)) (s : string)
    : option (JSValue * string) :=
  match fuel with
  | O => None
  | S fuel' =>
      match skip_ws s with
      | String q rest =>
          if Ascii.eqb q dquote then
            match parse_chars rest with
            | Some (k, rest1) =>
                match skip_ws rest1 with
                | String colon rest2 =>
                    if Ascii.eqb colon ":" then
                      match parse_value fuel' rest2 with
                      | Some (v, rest3) =>
                          match skip_ws rest3 with
                          | String c rest4 =>
                              if Ascii.eqb c ","
                              then parse_members fuel' (obj_set acc k v) rest4
                              else if Ascii.eqb c "}"
                              then Some (JObj (obj_set acc k v), rest4)
                              else None
                          | EmptyString => None
                          end
                      | None => None
                      end
                    else None
                | EmptyString => None
                end
            | None => None
            end
          else None
      | EmptyString => None
      end
  end.

(** [JSON.parse(text)]: one value, surrounded by white space only.  A
    text that is not JSON throws a [SyntaxError]. *)
Definition parse (text : string) : Result JSValue :=
  match parse_value (2 * String.length text + 2) text with
  | Some (v, rest) =>
      if is_empty (skip_ws rest) then ret v
      else throw (SyntaxError "unexpected data at the end")
  | None => throw (SyntaxError "unexpected token")
  end.

(** [JSON.parse(v)] for an argument that need not be a text: the
    argument is converted to text first. *)
Definition parse_value_of (v : JSValue) : Result JSValue :=
  bind (ToString v) parse.

(** *** Writing *)

Definition hex_digit (n : N) : ascii :=
  if (n <? 10)%N then ascii_of_N (48 + n) else ascii_of_N (87 + n).

(** [QuoteJSONString], one character at a time. *)
Definition quote_char (c : ascii) : string :=
  let n := N_of_ascii c in
  if Ascii.eqb c dquote then String "\" (String dquote EmptyString)
  else if Ascii.eqb c "\" then "\\"
  else if (n =? 8)%N then "\b"
  else if (n =? 9)%N then "\t"
  else if (n =? 10)%N then "\n"
  else if (n =? 12)%N then "\f"
  else if (n =? 13)%N then "\r"
  else if (n <? 32)%N then
    "\u00" ++ String (hex_digit (n / 16)) (String (hex_digit (n mod 16)) EmptyString)
  else String c EmptyString.

Fixpoint quote_chars (s : string) : string :=
  match s with
  | EmptyString => EmptyString
  | String c rest => quote_char c ++ quote_chars rest
  end.

Definition quote (s : string) : string :=
  String dquote (quote_chars s ++ String dquote EmptyString).

(** [JSON.stringify(v)] without indentation.  A value read from JSON has
    no [toJSON] method and no cycle, so no case throws. *)
Fixpoint stringify (v : JSValue) : string :=
  match v with
  | JNull => "null"
  | JBool b => if b then "true" else "false"
  | JNum n => Number_toString n
  | JStr s => quote s
  | JArr elems =>
      "[" ++ (fix items (l : list JSValue) : string :=
                match l with
                | [] => ""
                | x :: rest =>
                    stringify x
                    ++ match rest with [] => "" | _ => "," ++ items rest end
                end) elems ++ "]"
  | JObj props =>
      "{" ++ (fix members (l : list (string * JSValue)) : string :=
                match l with
                | [] => ""
                | (k, x) :: rest =>
                    quote k ++ ":" ++ stringify x
                    ++ match rest with [] => "" | _ => "," ++ members rest end
                end) props ++ "}"
  end.

End JSON.

(* ================================================================== *)
(** ** The workflow runtime                                            *)
(* ================================================================== *)

Module Runtime.
Import JS.

(** The request handed to [sendRequester.sendRequest]. *)
Record HTTPRequest : Type := mkRequest {
  req_url : string;
  req_method : string;
  req_headers : list (string * string);
  req_body : string
}.

(** What [sendRequester.sendRequest(req).result()] gives back: the status
    code and the body, the latter as the text [TextDecoder] reads
    from it. *)
Record HTTPResponse : Type := mkResponse {
  statusCode : N;
  resp_body : string
}.

(** One executor's transport: it answers a request or it throws. *)
Definition HTTPSendRequester : Type := HTTPRequest -> Result HTTPResponse.

(** [Runtime<C>]: the configuration, the redundant executors that
    carry out a node-mode call, the error the runtime raises when they
    disagree, and the instant [runtime.now().toISOString()] reports. *)
Record Runtime (C : Type) : Type := mkRuntime {
  config : C;
  executors : list HTTPSendRequester;
  consensus_failure : JSError;
  now_ISO : string
}.
Arguments config {C} _.
Arguments executors {C} _.
Arguments consensus_failure {C} _.
Arguments now_ISO {C} _.

(** Modelled from the spec: [consensusIdenticalAggregation] belongs to the
    SDK.  Section 4.3: "the aggregation policy requires byte-identical
    results across all executions before a single canonical result is
    accepted; if executions disagree, the call fails as a consensus
    failure (no partial/majority result is synthesized)". *)
Definition consensusIdenticalAggregation (observations : list JSValue)
    : option JSValue :=
  match observations with
  | [] => None
  | first :: others =>
      if forallb (JSValue_eqb first) others then Some first else None
  end.

(** Modelled from the spec: [httpClient.sendRequest(runtime, fn,
    consensusIdenticalAggregation())().result()] belongs to the SDK.
    Section 5: the same call is issued by the executors, "the
    orchestration layer blocks until all redundant executions return,
    then requires their results to be bit-identical; any result
    divergence is a hard failure of that call".  [fn] is run on every
    executor and a failure is an exception of [result()]. *)
Definition HTTPClient_sendRequest {C : Type} (runtime : Runtime C)
    (fn : HTTPSendRequester -> JSValue) : Result JSValue :=
  match consensusIdenticalAggregation (map fn (executors runtime)) with
  | Some result => ret result
  | None => throw (consensus_failure runtime)
  end.

(** The pieces of a template literal. *)
Inductive Piece : Type :=
  | Text (s : string)
  | Subst (value : option JSValue).

(** Evaluating a template literal: every substitution is converted to
    text, from left to right. *)
Fixpoint template (pieces : list Piece) : Result string :=
  match pieces with
  | [] => ret ""
  | Text s :: rest => bind (template rest) (fun t => ret (s ++ t))
  | Subst v :: rest =>
      bind (ToString_opt v) (fun a => bind (template rest) (fun t => ret (a ++ t)))
  end.

(** [runtime.log(message)]: the message is evaluated, which can throw;
    the line goes to the operator log and is not kept. *)
Definition log (message : Result string) : Result unit :=
  bind message (fun _ => ret tt).

End Runtime.

(* ================================================================== *)
(** ** [services/llm-service.ts]                                       *)
(* ================================================================== *)

Module Service.
Import JS Runtime.

(** [class LLMService]: its two private fields. *)
Record LLMService : Type := mkService { apiKey : string; baseUrl : string }.

(** [constructor(apiKey?: string)]: [this.apiKey = apiKey || ""]. *)
Definition new_LLMService (key : option string) : LLMService :=
  {| apiKey := match key with
               | Some k => if is_empty k then "" else k
               | None => ""
               end;
     baseUrl := "https://openrouter.ai/api/v1/chat/completions" |}.

(** [toBase64(new TextEncoder().encode(JSON.stringify(value)))]. *)
Definition encode_body (value : JSValue) : string :=
  let bodyString := JSON.stringify value in
  let bodyBytes := list_byte_of_string bodyString in
  Base64.toBase64 bodyBytes.

(** *** [sendRequest] *)

(** Lines 99-111: the request to the model provider. *)
Definition llm_request (service : LLMService) (payload : JSValue) : HTTPRequest :=
  {| req_url := baseUrl service;
     req_method := "POST";
     req_headers := [ ("Authorization", "Bearer " ++ apiKey service);
                      ("Content-Type", "application/json") ];
     req_body := encode_body payload |}.

(** The error envelope [JSON.stringify({ error: message })]. *)
Definition error_envelope (message : string) : JSValue :=
  JStr (JSON.stringify (JObj [("error", JStr message)])).

(** Lines 96-135: [fetchAndParse] of [sendRequest].  The function is
    typed to return a text; what it returns in the success case is
    [content], whatever value that property holds. *)
Definition sendRequest_fetchAndParse (service : LLMService) (payload : JSValue)
    (sendRequester : HTTPSendRequester) : JSValue :=
  let attempt : Result JSValue :=
    (resp <- sendRequester (llm_request service payload) ;;
     if negb (statusCode resp =? 200)%N then
       let errorBody := resp_body resp in
       ret (error_envelope ("HTTP " ++ decimal_of_N (statusCode resp) ++ ": " ++ errorBody))
     else
       let bodyText := resp_body resp in
       data <- JSON.parse bodyText ;;
       let no_content :=
         JStr (JSON.stringify (JObj [("error", JStr "No content in response");
                                     ("raw", data)])) in
       choices <- get data "choices" ;;
       if truthy_opt choices then
         first <- get_opt choices "0" ;;
         if truthy_opt first then
           message <- get_opt first "message" ;;
           if truthy_opt message then
             content <- get_opt message "content" ;;
             match content with
             | Some c => if truthy c then ret c else ret no_content
             | None => ret no_content
             end
           else ret no_content
         else ret no_content
       else ret no_content)%js in
  match attempt with
  | inr result => result
  | inl error => error_envelope (error_text error)
  end.

(** Lines 142-151: does the agreed result carry an error?  [true] stands
    for the [return null] inside the inner [try]. *)
Definition has_error (result : JSValue) : Result bool :=
  (parsed <- JSON.parse_value_of result ;;
   error <- get parsed "error" ;;
   if truthy_opt error then
     log (template [Text "LLM error: "; Subst error]) ;;;
     ret true
   else ret false)%js.

(** Lines 88-158.  The result is a completion, or [JNull] for [null]. *)
Definition sendRequest {C : Type} (service : LLMService) (runtime : Runtime C)
    (payload : JSValue) : JSValue :=
  match HTTPClient_sendRequest runtime (sendRequest_fetchAndParse service payload) with
  | inr result =>
      match has_error result with
      | inr true => JNull
      | inr false => result
      | inl _ => result
      end
  | inl error => JNull
  end.

(** *** [getTradingDecisions], lines 163-179 *)

Definition getTradingDecisions {C : Type} (service : LLMService)
    (runtime : Runtime C) (payload : JSValue) : JSValue :=
  let response := sendRequest service runtime payload in
  if negb (truthy response) then JNull
  else
    match JSON.parse_value_of response with
    | inr decisions => decisions
    | inl error => JNull
    end.

(** *** [sendToServer] *)

(** Lines 194-206: the request to the callback server.  The caller's
    headers are spread over the default one. *)
Definition callback_request (serverUrl : string) (data : JSValue)
    (headers : option (list (string * string))) : HTTPRequest :=
  {| req_url := serverUrl;
     req_method := "POST";
     req_headers :=
       obj_spread [("Content-Type", "application/json")]
                  (match headers with Some h => h | None => [] end);
     req_body := encode_body data |}.

Definition forward_ok (bodyText : string) : JSValue :=
  JObj [("success", JBool true); ("response", JStr bodyText)].

Definition forward_failed (message : string) : JSValue :=
  JObj [("success", JBool false); ("error", JStr message)].

(** Lines 192-220: [fetchAndParse] of [sendToServer]. *)
Definition sendToServer_fetchAndParse (serverUrl : string) (data : JSValue)
    (headers : option (list (string * string)))
    (sendRequester : HTTPSendRequester) : JSValue :=
  let attempt : Result JSValue :=
    (resp <- sendRequester (callback_request serverUrl data headers) ;;
     if (200 <=? statusCode resp)%N && (statusCode resp <? 300)%N then
       let bodyText := resp_body resp in
       ret (JStr (JSON.stringify (forward_ok bodyText)))
     else
       let errorBody := resp_body resp in
       ret (JStr (JSON.stringify
                    (forward_failed ("HTTP " ++ decimal_of_N (statusCode resp)
                                     ++ ": " ++ errorBody)))))%js in
  match attempt with
  | inr result => result
  | inl error => JStr (JSON.stringify (forward_failed (error_text error)))
  end.

(** Lines 184-232. *)
Definition sendToServer {C : Type} (runtime : Runtime C) (serverUrl : string)
    (data : JSValue) (headers : option (list (string * string))) : JSValue :=
  let attempt : Result JSValue :=
    (resultJson <- HTTPClient_sendRequest runtime
                     (sendToServer_fetchAndParse serverUrl data headers) ;;
     JSON.parse_value_of resultJson)%js in
  match attempt with
  | inr result => result
  | inl error => forward_failed (error_text error)
  end.

(** *** The declared shape of a decision, lines 60-73 *)

Definition is_text (o : option JSValue) : bool :=
  match o with Some (JStr _) => true | _ => false end.

Definition is_number (o : option JSValue) : bool :=
  match o with Some (JNum _) => true | _ => false end.

Definition is_number_or_null (o : option JSValue) : bool :=
  match o with Some (JNum _) | Some JNull => true | _ => false end.

Definition is_action (o : option JSValue) : bool :=
  match o with
  | Some (JStr a) => String.eqb a "buy" || String.eqb a "sell" || String.eqb a "hold"
  | _ => false
  end.

(** [type TradeDecision]. *)
Definition is_TradeDecision (v : JSValue) : bool :=
  match v with
  | JObj props =>
      is_text (obj_get "asset" props)
      && is_action (obj_get "action" props)
      && is_number (obj_get "allocation_usd" props)
      && is_number_or_null (obj_get "tp_price" props)
      && is_number_or_null (obj_get "sl_price" props)
      && is_text (obj_get "exit_plan" props)
      && is_text (obj_get "rationale" props)
  | _ => false
  end.

(** [type TradingDecisionResponse]. *)
Definition is_TradingDecisionResponse (v : JSValue) : bool :=
  match v with
  | JObj props =>
      is_text (obj_get "reasoning" props)
      && match obj_get "trade_decisions" props with
         | Some (JArr decisions) => forallb is_TradeDecision decisions
         | _ => false
         end
  | _ => false
  end.

End Service.

(* ================================================================== *)
(** ** [main.ts]                                                      *)
(* ================================================================== *)

Module Main.
Import JS Runtime Service.

(** [type Config]. *)
Record Config : Type := mkConfig {
  schedule : string;
  authorizedEVMAddress : string;
  callbackUrl : string;
  openRouterApiKey : string;
  taapiApiKey : string
}.

(** [HTTPPayload]: the bytes of the inbound request. *)
Record HTTPPayload : Type := mkPayload { input : list byte }.

(** [decodeJson] of the SDK: the bytes are read as text, the text as
    JSON. *)
Definition decodeJson (bytes : list byte) : Result JSValue :=
  JSON.parse (string_of_list_byte bytes).

(** The calls a handler makes on the service, in order. *)
Inductive Call : Type :=
  | Call_sendRequest (payload : JSValue)
  | Call_sendToServer (serverUrl : string) (data : JSValue).

(** A handler run: the service calls it made, and its return value or
    the exception that left it. *)
Definition Run (A : Type) : Type := (list Call * Result A)%type.

Definition done {A : Type} (a : A) : Run A := ([], inr a).

Definition lift {A : Type} (r : Result A) : Run A := ([], r).

Definition calling {A : Type} (c : Call) (a : A) : Run A := ([c], inr a).

Definition and_then {A B : Type} (m : Run A) (k : A -> Run B) : Run B :=
  match m with
  | (calls, inl e) => (calls, inl e)
  | (calls, inr a) => let (calls', r) := k a in ((calls ++ calls')%list, r)
  end.

Declare Scope run_scope.
Delimit Scope run_scope with run.
Notation "x <~ m ;; k" := (and_then m (fun x => k))
  (at level 61, m at next level, right associativity) : run_scope.
Notation "m ~;; k" := (and_then m (fun _ => k))
  (at level 61, right associativity) : run_scope.

(** Lines 12-15. *)
Definition onCronTrigger (runtime : Runtime Config) : string := "Hello world!".

Definition missing_data_error : JSValue :=
  JStr (JSON.stringify
          (JObj [("error", JStr "Missing required data: model and messages are required")])).

Definition llm_failure_error : JSValue :=
  JStr (JSON.stringify (JObj [("error", JStr "Failed to get response from LLM")])).

(** The body of the loop at lines 45-47. *)
Definition log_decision (decision : JSValue) : Result unit :=
  (asset <- get decision "asset" ;;
   action <- get decision "action" ;;
   allocation_usd <- get decision "allocation_usd" ;;
   log (template [Subst asset; Text ": "; Subst action; Text " - $";
                  Subst allocation_usd]))%js.

(** Lines 40-52: reading the completion.  Whatever is thrown inside the
    [try], by [JSON.parse] or while the decisions are logged, ends in
    the [catch]. *)
Definition interpretResponse (response : JSValue) : JSValue :=
  let attempt : Result JSValue :=
    (parsedResponse <- JSON.parse_value_of response ;;
     trade_decisions <- get parsedResponse "trade_decisions" ;;
     match trade_decisions with
     | Some decisions =>
         if truthy decisions then
           count <- get decisions "length" ;;
           log (template [Text "Received "; Subst count; Text " trading decisions"]) ;;;
           for_of decisions log_decision ;;;
           ret parsedResponse
         else ret parsedResponse
     | None => ret parsedResponse
     end)%js in
  match attempt with
  | inr parsedResponse => parsedResponse
  | inl _ => JObj [("raw_response", response)]
  end.

(** Lines 68-72: reporting the outcome of the callback. *)
Definition log_server_result (serverResult : JSValue) : Result unit :=
  (success <- get serverResult "success" ;;
   if truthy_opt success then log (ret "Successfully sent to server")
   else
     error <- get serverResult "error" ;;
     log (template [Text "Failed to send to server: "; Subst error]))%js.

(** Lines 17-81. *)
Definition onHttpTrigger (runtime : Runtime Config) (payload : HTTPPayload)
    : Run JSValue :=
  (requestPayload <~ lift (decodeJson (input payload)) ;;
   model <~ lift (get requestPayload "model") ;;
   lift (log (template [Text "Received LLM request for model: "; Subst model])) ~;;
   messages <~ lift (get requestPayload "messages") ;;
   if negb (truthy_opt model) || negb (truthy_opt messages) then
     lift (log (ret "Missing required data: model or messages")) ~;;
     done missing_data_error
   else
     let llmService := new_LLMService (Some (openRouterApiKey (config runtime))) in
     lift (log (ret "Forwarding request to LLM...")) ~;;
     response <~ calling (Call_sendRequest requestPayload)
                   (sendRequest llmService runtime requestPayload) ;;
     if negb (truthy response) then
       lift (log (ret "Failed to get response from LLM")) ~;;
       done llm_failure_error
     else
       lift (log (ret "Received response from LLM")) ~;;
       let parsedResponse := interpretResponse response in
       let url := callbackUrl (config runtime) in
       if negb (is_empty url) then
         lift (log (ret ("Sending response to callback server: " ++ url))) ~;;
         let data := JObj [("llm_response", parsedResponse);
                           ("timestamp", JStr (now_ISO runtime))] in
         serverResult <~ calling (Call_sendToServer url data)
                           (sendToServer runtime url data None) ;;
         lift (log_server_result serverResult) ~;;
         done (JStr (JSON.stringify
                       (JObj [("llm_response", parsedResponse);
                              ("server_callback", serverResult)])))
       else done response)%run.

End Main.

(* ================================================================== *)
(** ** Concrete runs                                                   *)
(* ================================================================== *)

Module Examples.
Import JS Runtime Service Main.

(** An executor whose transport answers every request alike. *)
Definition respond (code : N) (body : string) : HTTPSendRequester :=
  fun _ => inr (mkResponse code body).

(** An executor whose transport fails. *)
Definition unreachable : HTTPSendRequester :=
  fun _ => inl (mkError "Error" "connection refused").

Definition example_config (callback : string) : Config :=
  {| schedule := "0 */5 * * * *";
     authorizedEVMAddress := "0x0000000000000000000000000000000000000001";
     callbackUrl := callback;
     openRouterApiKey := "sk-test";
     taapiApiKey := "" |}.

Definition example_runtime (callback : string) (nodes : list HTTPSendRequester)
    : Runtime Config :=
  {| config := example_config callback;
     executors := nodes;
     consensus_failure := mkError "Error" "consensus failed: results differ";
     now_ISO := "2025-01-01T00:00:00.000Z" |}.

Definition example_service : LLMService := new_LLMService (Some "sk-test").

(** The provider's answer [{"choices":[{"message":{"content": c}}]}]. *)
Definition completion_body (content : string) : string :=
  JSON.stringify
    (JObj [("choices", JArr [JObj [("message", JObj [("content", JStr content)])]])]).

Definition user_message : JSValue :=
  JObj [("role", JStr "user"); ("content", JStr "hi")].

(** The payload [{"model":"m","messages":[{"role":"user","content":"hi"}]}]. *)
Definition good_payload : JSValue :=
  JObj [("model", JStr "m"); ("messages", JArr [user_message])].

(** The payload [{"model":"m","messages":[]}]. *)
Definition empty_messages_payload : JSValue :=
  JObj [("model", JStr "m"); ("messages", JArr [])].

(** The payload [{"model":"m"}]. *)
Definition no_messages_payload : JSValue := JObj [("model", JStr "m")].

(** The inbound request carrying the text of [v]. *)
Definition payload_of (v : JSValue) : HTTPPayload :=
  {| input := list_byte_of_string (JSON.stringify v) |}.

(** The inbound request carrying [text]. *)
Definition payload_text (text : string) : HTTPPayload :=
  {| input := list_byte_of_string text |}.


End Examples.

(* ================================================================== *)
(** ** Further notions and concrete runs                               *)
(* ================================================================== *)

Module Scenarios.
Import JS Runtime Service Main Examples.



(** The provider's answer [body] reads as JSON and holds the truthy
    value [c] at [choices[0].message.content], every step of the path
    being truthy as line 124 requires. *)
Definition has_content (body : string) (c : JSValue) : Prop :=
  exists data choices first message,
    JSON.parse body = inr data
    /\ get data "choices" = inr (Some choices) /\ truthy choices = true
    /\ get choices "0" = inr (Some first) /\ truthy first = true
    /\ get first "message" = inr (Some message) /\ truthy message = true
    /\ get message "content" = inr (Some c) /\ truthy c = true.

(** *** Values as [JSON.parse] builds them *)

Fixpoint all_digits (s : string) : bool :=
  match s with
  | EmptyString => true
  | String c rest => is_digit c && all_digits rest
  end.

Fixpoint last_nonzero (s : string) : bool :=
  match s with
  | EmptyString => true
  | String c EmptyString => negb (Ascii.eqb c "0")
  | String _ rest => last_nonzero rest
  end.

Definition first_nonzero (s : string) : bool :=
  match s with
  | EmptyString => true
  | String c _ => negb (Ascii.eqb c "0")
  end.

(** The digits of a number are decimal digits, the first and the last
    of them other than zero. *)
Definition canonical (n : JSNumber) : bool :=
  all_digits (num_digits n) && first_nonzero (num_digits n)
  && last_nonzero (num_digits n).

(** Every number in the value is canonical. *)
Fixpoint well_formed (v : JSValue) : bool :=
  match v with
  | JNull | JBool _ | JStr _ => true
  | JNum n => canonical n
  | JArr elems =>
      (fix all (l : list JSValue) : bool :=
         match l with
         | [] => true
         | x :: rest => well_formed x && all rest
         end) elems
  | JObj props =>
      (fix all (l : list (string * JSValue)) : bool :=
         match l with
         | [] => true
         | (_, x) :: rest => well_formed x && all rest
         end) props
  end.

(** A text that does not go on with a digit. *)
Definition no_digit_ahead (rest : string) : bool :=
  match rest with
  | EmptyString => true
  | String c _ => negb (is_digit c)
  end.

(** A text that cannot go on a number literal. *)
Definition ends_number (rest : string) : bool :=
  match rest with
  | EmptyString => true
  | String c _ =>
      negb (is_digit c) && negb (Ascii.eqb c ".")
      && negb (Ascii.eqb c "e") && negb (Ascii.eqb c "E")
  end.

(** The text of a number literal with the given parts: a sign, an
    integer part, a fraction (none when empty) and an exponent (its
    sign and its digits). *)
Definition literal (neg : bool) (int frac : string)
    (exp : option (bool * string)) : string :=
  (if neg then "-" else "")
  ++ int
  ++ (if is_empty frac then "" else "." ++ frac)
  ++ match exp with
     | Some (negative, digits) => "e" ++ (if negative then "-" else "+") ++ digits
     | None => ""
     end.

(** What can follow a value inside a JSON text: nothing, a comma or a
    closing bracket. *)
Definition terminated (rest : string) : bool :=
  match rest with
  | EmptyString => true
  | String c _ => Ascii.eqb c "," || Ascii.eqb c "]" || Ascii.eqb c "}"
  end.

(** The text between the brackets of a written array, and between the
    braces of a written object. *)
Definition items_text : list JSValue -> string :=
  fix items (l : list JSValue) : string :=
    match l with
    | [] => ""
    | x :: rest =>
        JSON.stringify x ++ match rest with [] => "" | _ => "," ++ items rest end
    end.

Definition members_text : list (string * JSValue) -> string :=
  fix members (l : list (string * JSValue)) : string :=
    match l with
    | [] => ""
    | (k, x) :: rest =>
        JSON.quote k ++ ":" ++ JSON.stringify x
        ++ match rest with [] => "" | _ => "," ++ members rest end
    end.

(** The text [JSON.stringify] writes for [v], when every number of [v]
    is canonical, is read whole by the reader, up to whatever may follow
    a value. *)
Definition reads_back (v : JSValue) : Prop :=
  well_formed v = true ->
  forall rest, terminated rest = true ->
  exists v' fuel,
    JSON.parse_value fuel (JSON.stringify v ++ rest) = Some (v', rest).

(** A text that [JSON.parse] accepts. *)
Definition is_JSON (text : string) : Prop :=
  exists v, JSON.parse text = inr v.

(** The text an outbound request carries: its body, decoded. *)
Definition body_text (req : HTTPRequest) : option string :=
  option_map string_of_list_byte (Base64.rfc4648_decode (req_body req)).

(** The request a call of the handler has every executor send:
    [sendRequest] builds it at lines 99-111 and [sendToServer], called
    without headers at main.ts lines 59-66, at lines 194-206. *)
Definition request_of (service : LLMService) (call : Call) : HTTPRequest :=
  match call with
  | Call_sendRequest payload => llm_request service payload
  | Call_sendToServer serverUrl data => callback_request serverUrl data None
  end.

(** Line 130: [JSON.stringify({ error: "No content in response",
    raw: data })]. *)
Definition no_content_envelope (data : JSValue) : JSValue :=
  JStr (JSON.stringify (JObj [("error", JStr "No content in response");
                              ("raw", data)])).




(** An executor whose transport answers the model provider's URL with
    [llm] and any other URL with [callback]. *)
Definition route (llm callback : HTTPSendRequester) : HTTPSendRequester :=
  fun req =>
    if String.eqb (req_url req) "https://openrouter.ai/api/v1/chat/completions"
    then llm req
    else callback req.

(** The decision [{"asset":"BTC","action":"buy","allocation_usd":100,
    "tp_price":null,"sl_price":null,"exit_plan":"x","rationale":"y"}]. *)
Definition example_decision : JSValue :=
  JObj [("asset", JStr "BTC"); ("action", JStr "buy");
        ("allocation_usd", JNum (number_of_nat 100));
        ("tp_price", JNull); ("sl_price", JNull);
        ("exit_plan", JStr "x"); ("rationale", JStr "y")].

(** The response [{"reasoning":"ok","trade_decisions":[...]}]. *)
Definition example_decisions : JSValue :=
  JObj [("reasoning", JStr "ok"); ("trade_decisions", JArr [example_decision])].

End Scenarios.
(* ================================================================== *)
(** * Properties                                                       *)
(* ================================================================== *)

(** ** The binary codec *)

Section Base64Facts.
Import Base64.

Lemma below_In (n : N) (k : nat) : (n < N.of_nat k)%N -> In n (below k).
Proof.
  intro H. unfold below. apply in_map_iff. exists (N.to_nat n). split.
  - apply N2Nat.id.
  - apply in_seq. lia.
Qed.

Lemma forall_below (P : N -> bool) (k : nat) :
  forallb P (below k) = true -> forall n, (n < N.of_nat k)%N -> P n = true.
Proof.
  intros H n Hn. rewrite forallb_forall in H. apply H, below_In, Hn.
Qed.

Lemma char_at_symbol (n : N) :
  (n < 64)%N ->
  exists c, char_at n = String c EmptyString /\ sextet c = Some n /\ is_pad c = false.
Proof.
  intro Hn.
  assert (H : symbol_ok n = true).
  { apply (forall_below symbol_ok 64); [vm_compute; reflexivity | exact Hn]. }
  unfold symbol_ok in H.
  destruct (char_at n) as [|c [|? ?]]; try discriminate.
  exists c. destruct (sextet c) as [m|]; try discriminate.
  apply andb_true_iff in H. destruct H as [Hm Hp].
  apply N.eqb_eq in Hm. subst m.
  repeat split. now apply negb_true_iff.
Qed.

Lemma split1 (b1 x : N) :
  (b1 < 256)%N -> (x < 16)%N ->
  let v1 := N.shiftr b1 2 in
  let v2 := N.lor (N.shiftl (N.land b1 3) 4) x in
  N.lor (N.shiftl v1 2) (N.shiftr v2 4) = b1
  /\ N.land v2 15 = x /\ (v1 < 64)%N /\ (v2 < 64)%N.
Proof.
  intros Hb Hx.
  assert (H : forallb (fun b => forallb (split1_ok b) (below 16)) (below 256) = true)
    by (vm_compute; reflexivity).
  pose proof (forall_below _ 256 H b1 Hb) as H1. cbv beta in H1.
  pose proof (forall_below _ 16 H1 x Hx) as H2.
  unfold split1_ok in H2.
  repeat (apply andb_true_iff in H2; destruct H2 as [H2 ?]).
  cbv zeta. repeat split;
    first [ now apply N.eqb_eq | now apply N.ltb_lt ].
Qed.

Lemma split2 (b2 y : N) :
  (b2 < 256)%N -> (y < 4)%N ->
  let v3 := N.lor (N.shiftl (N.land b2 15) 2) y in
  N.lor (N.shiftl (N.shiftr b2 4) 4) (N.shiftr v3 2) = b2
  /\ N.land v3 3 = y /\ (v3 < 64)%N /\ (N.shiftr b2 4 < 16)%N.
Proof.
  intros Hb Hy.
  assert (H : forallb (fun b => forallb (split2_ok b) (below 4)) (below 256) = true)
    by (vm_compute; reflexivity).
  pose proof (forall_below _ 256 H b2 Hb) as H1. cbv beta in H1.
  pose proof (forall_below _ 4 H1 y Hy) as H2.
  unfold split2_ok in H2.
  repeat (apply andb_true_iff in H2; destruct H2 as [H2 ?]).
  cbv zeta. repeat split;
    first [ now apply N.eqb_eq | now apply N.ltb_lt ].
Qed.

Lemma split3 (b3 : N) :
  (b3 < 256)%N ->
  N.lor (N.shiftl (N.shiftr b3 6) 6) (N.land b3 63) = b3
  /\ (N.land b3 63 < 64)%N /\ (N.shiftr b3 6 < 4)%N.
Proof.
  intros Hb.
  assert (H : forallb split3_ok (below 256) = true) by (vm_compute; reflexivity).
  pose proof (forall_below _ 256 H b3 Hb) as H2.
  unfold split3_ok in H2.
  repeat (apply andb_true_iff in H2; destruct H2 as [H2 ?]).
  repeat split; first [ now apply N.eqb_eq | now apply N.ltb_lt ].
Qed.

Lemma to_N_lt (b : byte) : (Byte.to_N b < 256)%N.
Proof. pose proof (Byte.to_N_bounded b). lia. Qed.

End Base64Facts.

Section Base64Roundtrip.
Import Base64.

Lemma append_empty_r (s : string) : s ++ "" = s.
Proof. induction s as [|c s IH]; simpl; [reflexivity | now rewrite IH]. Qed.

Lemma append_assoc (s t u : string) : (s ++ t) ++ u = s ++ (t ++ u).
Proof. induction s as [|c s IH]; simpl; [reflexivity | now rewrite IH]. Qed.

(** One pass of the loop at index [i] writes the RFC group of the three
    octets found there. *)
Lemma group_skipn (i : nat) :
  forall bytes : list byte,
    (i < List.length bytes)%nat ->
    rfc4648_encode (skipn i bytes)
    = group bytes i ++ rfc4648_encode (skipn (i + 3) bytes).
Proof.
  induction i as [|i IH]; intros bytes Hi.
  - destruct bytes as [|b1 [|b2 [|b3 rest]]]; simpl in Hi; try lia.
    + cbn. unfold quad1, group, byte_at. cbn.
      rewrite N.lor_0_r, !append_assoc. reflexivity.
    + cbn. unfold quad2, group, byte_at. cbn.
      rewrite N.lor_0_r, !append_assoc. reflexivity.
    + cbn [skipn Nat.add]. unfold group, byte_at. cbn [rfc4648_encode].
      unfold quad3. cbn. rewrite !append_assoc. reflexivity.
  - destruct bytes as [|b bytes]; simpl in Hi; try lia.
    change (skipn (S i) (b :: bytes)) with (skipn i bytes).
    change (skipn (S i + 3) (b :: bytes)) with (skipn (i + 3) bytes).
    rewrite IH by lia. reflexivity.
Qed.

Lemma toBase64_loop_groups (fuel : nat) :
  forall (bytes : list byte) (i : nat) (result : string),
    (List.length bytes - i <= fuel)%nat ->
    toBase64_loop fuel bytes i result = result ++ rfc4648_encode (skipn i bytes).
Proof.
  induction fuel as [|fuel IH]; intros bytes i result Hfuel; simpl.
  - rewrite skipn_all2 by lia. simpl. now rewrite append_empty_r.
  - destruct (i <? List.length bytes)%nat eqn:Hlt.
    + apply Nat.ltb_lt in Hlt.
      rewrite IH by lia. rewrite append_assoc, <- group_skipn by exact Hlt.
      reflexivity.
    + apply Nat.ltb_ge in Hlt.
      rewrite skipn_all2 by lia. simpl. now rewrite append_empty_r.
Qed.

(** The loop computes the RFC 4648 encoding. *)
Lemma toBase64_groups (bytes : list byte) : toBase64 bytes = rfc4648_encode bytes.
Proof.
  unfold toBase64. rewrite toBase64_loop_groups by lia. reflexivity.
Qed.

(** Lists, three elements at a time. *)
Lemma list_ind3 {A : Type} (P : list A -> Prop) :
  P [] -> (forall a, P [a]) -> (forall a b, P [a; b]) ->
  (forall a b c l, P l -> P (a :: b :: c :: l)) ->
  forall l, P l.
Proof.
  intros H0 H1 H2 H3.
  fix go 1. intros [|a [|b [|c l]]].
  - exact H0.
  - apply H1.
  - apply H2.
  - apply H3, go.
Qed.

Lemma decode_quad1 (b1 : byte) :
  rfc4648_decode (quad1 (Byte.to_N b1)) = Some [b1].
Proof.
  unfold quad1.
  destruct (split1 (Byte.to_N b1) 0 (to_N_lt b1) eq_refl) as (E1 & E2 & L1 & L2).
  rewrite N.lor_0_r in E1, E2, L2.
  destruct (char_at_symbol _ L1) as (c1 & -> & S1 & _).
  destruct (char_at_symbol _ L2) as (c2 & -> & S2 & _).
  cbn [append rfc4648_decode]. unfold decode_group.
  rewrite S1, S2. cbn [is_pad is_empty].
  change (Ascii.eqb "=" "=") with true. cbn [andb].
  rewrite E2, E1, Byte.of_to_N. reflexivity.
Qed.

Lemma decode_quad2 (b1 b2 : byte) :
  rfc4648_decode (quad2 (Byte.to_N b1) (Byte.to_N b2)) = Some [b1; b2].
Proof.
  unfold quad2.
  destruct (split2 (Byte.to_N b2) 0 (to_N_lt b2) eq_refl) as (F1 & F2 & M1 & M2).
  destruct (split1 (Byte.to_N b1) _ (to_N_lt b1) M2) as (E1 & E2 & L1 & L2).
  rewrite N.lor_0_r in F1, F2, M1.
  destruct (char_at_symbol _ L1) as (c1 & -> & S1 & _).
  destruct (char_at_symbol _ L2) as (c2 & -> & S2 & _).
  destruct (char_at_symbol _ M1) as (c3 & -> & S3 & P3).
  cbn [append rfc4648_decode]. unfold decode_group.
  rewrite S1, S2, P3, S3. cbn [is_pad is_empty].
  change (Ascii.eqb "=" "=") with true. cbn [andb].
  rewrite F2, E2, E1, F1, !Byte.of_to_N. reflexivity.
Qed.

Lemma decode_quad3 (b1 b2 b3 : byte) (rest : string) :
  rfc4648_decode (quad3 (Byte.to_N b1) (Byte.to_N b2) (Byte.to_N b3) ++ rest)
  = match rfc4648_decode rest with
    | Some tail => Some (b1 :: b2 :: b3 :: tail)
    | None => None
    end.
Proof.
  unfold quad3.
  destruct (split3 (Byte.to_N b3) (to_N_lt b3)) as (G1 & N1 & N2).
  destruct (split2 (Byte.to_N b2) _ (to_N_lt b2) N2) as (F1 & F2 & M1 & M2).
  destruct (split1 (Byte.to_N b1) _ (to_N_lt b1) M2) as (E1 & E2 & L1 & L2).
  destruct (char_at_symbol _ L1) as (c1 & -> & S1 & _).
  destruct (char_at_symbol _ L2) as (c2 & -> & S2 & _).
  destruct (char_at_symbol _ M1) as (c3 & -> & S3 & P3).
  destruct (char_at_symbol _ N1) as (c4 & -> & S4 & P4).
  cbn [append rfc4648_decode]. unfold decode_group.
  rewrite S1, S2, P3, S3, P4, S4.
  rewrite F2, E2, E1, F1, G1, !Byte.of_to_N. reflexivity.
Qed.

Lemma decode_encode (bytes : list byte) :
  rfc4648_decode (rfc4648_encode bytes) = Some bytes.
Proof.
  induction bytes as [|b1|b1 b2|b1 b2 b3 rest IH] using list_ind3.
  - reflexivity.
  - apply decode_quad1.
  - apply decode_quad2.
  - cbn [rfc4648_encode]. rewrite decode_quad3, IH. reflexivity.
Qed.

Lemma has_pad_app (s t : string) : has_pad (s ++ t) = has_pad s || has_pad t.
Proof.
  induction s as [|c s IH]; simpl; [reflexivity | now rewrite IH, orb_assoc].
Qed.

Lemma has_pad_char_at (n : N) : (n < 64)%N -> has_pad (char_at n) = false.
Proof.
  intro Hn. destruct (char_at_symbol n Hn) as (c & -> & _ & Hp).
  simpl. now rewrite Hp.
Qed.

Lemma has_pad_quad3 (b1 b2 b3 : byte) :
  has_pad (quad3 (Byte.to_N b1) (Byte.to_N b2) (Byte.to_N b3)) = false.
Proof.
  unfold quad3.
  destruct (split3 (Byte.to_N b3) (to_N_lt b3)) as (G1 & N1 & N2).
  destruct (split2 (Byte.to_N b2) _ (to_N_lt b2) N2) as (F1 & F2 & M1 & M2).
  destruct (split1 (Byte.to_N b1) _ (to_N_lt b1) M2) as (E1 & E2 & L1 & L2).
  rewrite !has_pad_app, !has_pad_char_at by assumption. reflexivity.
Qed.

Lemma encode_padding (bytes : list byte) : padding_of bytes (rfc4648_encode bytes).
Proof.
  induction bytes as [|b1|b1 b2|b1 b2 b3 rest IH] using list_ind3.
  - reflexivity.
  - unfold padding_of. cbn [List.length Nat.modulo Nat.divmod fst snd Nat.sub].
    cbn [rfc4648_encode]. unfold quad1.
    destruct (split1 (Byte.to_N b1) 0 (to_N_lt b1) eq_refl) as (E1 & E2 & L1 & L2).
    rewrite N.lor_0_r in L2.
    exists (char_at (N.shiftr (Byte.to_N b1) 2)
            ++ char_at (N.shiftl (N.land (Byte.to_N b1) 3) 4)).
    split; [now rewrite append_assoc|].
    rewrite has_pad_app, !has_pad_char_at by assumption. reflexivity.
  - unfold padding_of. cbn [List.length Nat.modulo Nat.divmod fst snd Nat.sub].
    cbn [rfc4648_encode]. unfold quad2.
    destruct (split2 (Byte.to_N b2) 0 (to_N_lt b2) eq_refl) as (F1 & F2 & M1 & M2).
    destruct (split1 (Byte.to_N b1) _ (to_N_lt b1) M2) as (E1 & E2 & L1 & L2).
    rewrite N.lor_0_r in M1.
    exists (char_at (N.shiftr (Byte.to_N b1) 2)
            ++ char_at (N.lor (N.shiftl (N.land (Byte.to_N b1) 3) 4)
                              (N.shiftr (Byte.to_N b2) 4))
            ++ char_at (N.shiftl (N.land (Byte.to_N b2) 15) 2)).
    split; [now rewrite !append_assoc|].
    rewrite !has_pad_app, !has_pad_char_at by assumption. reflexivity.
  - unfold padding_of in *.
    replace (List.length (b1 :: b2 :: b3 :: rest) mod 3)%nat
      with (List.length rest mod 3)%nat.
    2:{ change (List.length (b1 :: b2 :: b3 :: rest)) with (3 + List.length rest)%nat.
        rewrite Nat.add_comm.
        now rewrite <- (Nat.Div0.mod_add (List.length rest) 1 3), Nat.mul_1_l. }
    cbn [rfc4648_encode].
    destruct (List.length rest mod 3)%nat as [|[|k]].
    + now rewrite has_pad_app, has_pad_quad3, IH.
    + destruct IH as (p & -> & Hp).
      exists (quad3 (Byte.to_N b1) (Byte.to_N b2) (Byte.to_N b3) ++ p).
      split; [now rewrite append_assoc|].
      now rewrite has_pad_app, has_pad_quad3, Hp.
    + destruct IH as (p & -> & Hp).
      exists (quad3 (Byte.to_N b1) (Byte.to_N b2) (Byte.to_N b3) ++ p).
      split; [now rewrite append_assoc|].
      now rewrite has_pad_app, has_pad_quad3, Hp.
Qed.

(** C8.  For every byte sequence, [toBase64] is the RFC 4648 base64
    encoding: it agrees with the encoding written group by group, the
    reference decoder gives the bytes back, and the text has no padding
    symbol when the length is a multiple of three, ends in [==] (after
    text without padding) when the length is one more than a multiple
    of three, and ends in a single [=] when it is two more. *)
Theorem toBase64_is_rfc4648 (bytes : list byte) :
  toBase64 bytes = rfc4648_encode bytes
  /\ rfc4648_decode (toBase64 bytes) = Some bytes
  /\ padding_of bytes (toBase64 bytes).
Proof.
  rewrite toBase64_groups. repeat split.
  - apply decode_encode.
  - apply encode_padding.
Qed.

End Base64Roundtrip.

(** ** Writing JSON and reading it back *)

Section JSONFacts.
Import JS JSON.

(** A control character is written as an escape that reads back. *)
Lemma parse_chars_quote_control (n : N) (tail : string) :
  (n < 32)%N ->
  parse_chars (quote_char (ascii_of_N n) ++ tail)
  = prepend (String (ascii_of_N n) EmptyString) (parse_chars tail).
Proof.
  intro Hn.
  assert (Hcases : In n (Base64.below 32)) by (apply below_In; exact Hn).
  cbv in Hcases.
  repeat (destruct Hcases as [<- | Hcases]; [reflexivity|]).
  contradiction.
Qed.

(** Reading what [quote_char] wrote gives the character back. *)
Lemma parse_chars_quote_char (c : ascii) (tail : string) :
  parse_chars (quote_char c ++ tail)
  = prepend (String c EmptyString) (parse_chars tail).
Proof.
  destruct (N_of_ascii c <? 32)%N eqn:Hctl.
  - apply N.ltb_lt in Hctl.
    rewrite <- (ascii_N_embedding c). now apply parse_chars_quote_control.
  - destruct (Ascii.eqb c dquote) eqn:Hq.
    { apply Ascii.eqb_eq in Hq. subst c. reflexivity. }
    destruct (Ascii.eqb c "\") eqn:Hb.
    { apply Ascii.eqb_eq in Hb. subst c. reflexivity. }
    assert (Hquote : quote_char c = String c EmptyString).
    { unfold quote_char. rewrite Hq, Hb, Hctl.
      apply N.ltb_ge in Hctl.
      repeat match goal with
             | |- context [(N_of_ascii c =? ?k)%N] =>
                 replace (N_of_ascii c =? k)%N with false
                   by (symmetry; apply N.eqb_neq; lia)
             end.
      reflexivity. }
    rewrite Hquote. cbn [append parse_chars]. now rewrite Hq, Hb, Hctl.
Qed.

Lemma parse_chars_quote (s rest : string) :
  parse_chars (quote_chars s ++ String dquote rest) = Some (s, rest).
Proof.
  induction s as [|c s IH].
  - reflexivity.
  - cbn [quote_chars]. rewrite append_assoc, parse_chars_quote_char, IH.
    reflexivity.
Qed.

Lemma quote_app (s rest : string) :
  quote s ++ rest = String dquote (quote_chars s ++ String dquote rest).
Proof. unfold quote. cbn [append]. now rewrite append_assoc. Qed.

Lemma parse_value_quote (fuel : nat) (s rest : string) :
  parse_value (S fuel) (quote s ++ rest) = Some (JStr s, rest).
Proof.
  rewrite quote_app. cbn [parse_value skip_ws].
  change (is_ws dquote) with false. cbv iota.
  change (Ascii.eqb dquote "{") with false.
  change (Ascii.eqb dquote "[") with false.
  change (Ascii.eqb dquote dquote) with true. cbv iota.
  now rewrite parse_chars_quote.
Qed.

Lemma parse_value_true (fuel : nat) (rest : string) :
  parse_value (S fuel) ("true" ++ rest) = Some (JBool true, rest).
Proof. reflexivity. Qed.

Lemma parse_value_false (fuel : nat) (rest : string) :
  parse_value (S fuel) ("false" ++ rest) = Some (JBool false, rest).
Proof. reflexivity. Qed.

(** One member of an object, followed by a comma or by the closing
    brace. *)
Lemma parse_members_more (fuel : nat) (acc : list (string * JSValue))
    (k vtext rest : string) (v : JSValue) :
  parse_value fuel vtext = Some (v, String "," rest) ->
  parse_members (S fuel) acc (quote k ++ String ":" vtext)
  = parse_members fuel (obj_set acc k v) rest.
Proof.
  intro Hv. rewrite quote_app. cbn [parse_members skip_ws].
  change (is_ws dquote) with false. cbv iota.
  change (Ascii.eqb dquote dquote) with true. cbv iota.
  rewrite parse_chars_quote. cbn [skip_ws].
  change (is_ws ":") with false. cbv iota.
  change (Ascii.eqb ":" ":") with true. cbv iota.
  rewrite Hv. reflexivity.
Qed.

Lemma parse_members_last (fuel : nat) (acc : list (string * JSValue))
    (k vtext rest : string) (v : JSValue) :
  parse_value fuel vtext = Some (v, String "}" rest) ->
  parse_members (S fuel) acc (quote k ++ String ":" vtext)
  = Some (JObj (obj_set acc k v), rest).
Proof.
  intro Hv. rewrite quote_app. cbn [parse_members skip_ws].
  change (is_ws dquote) with false. cbv iota.
  change (Ascii.eqb dquote dquote) with true. cbv iota.
  rewrite parse_chars_quote. cbn [skip_ws].
  change (is_ws ":") with false. cbv iota.
  change (Ascii.eqb ":" ":") with true. cbv iota.
  rewrite Hv. reflexivity.
Qed.

Lemma parse_value_object (fuel : nat) (k rest : string) :
  parse_value (S fuel) (String "{" (quote k ++ rest))
  = parse_members fuel [] (quote k ++ rest).
Proof. rewrite quote_app. reflexivity. Qed.

(** [parse] succeeds when [parse_value] reads the whole text with four
    units of fuel, whatever more there is. *)
Lemma parse_whole (c : ascii) (text : string) (v : JSValue) :
  (forall fuel, parse_value (4 + fuel) (String c text) = Some (v, EmptyString)) ->
  parse (String c text) = inr v.
Proof.
  intro H. unfold parse.
  replace (2 * String.length (String c text) + 2)%nat
    with (4 + 2 * String.length text)%nat by (cbn [String.length]; lia).
  rewrite H. reflexivity.
Qed.

(** Writing the pieces of a text one after the other. *)
Ltac flatten_text := repeat (progress (rewrite ?append_assoc; cbn [append])).

(** An object with one text property reads back as it was written. *)
Lemma parse_stringify_text1 (k s : string) :
  parse (stringify (JObj [(k, JStr s)])) = inr (JObj (obj_set [] k (JStr s))).
Proof.
  cbn [stringify]. flatten_text. apply parse_whole. intro fuel.
  change (4 + fuel)%nat with (S (S (S (S fuel)))).
  rewrite parse_value_object.
  apply parse_members_last. apply parse_value_quote.
Qed.

(** An object with a boolean and a text property reads back as it was
    written. *)
Lemma parse_stringify_bool_text (k1 k2 s : string) (b : bool) :
  parse (stringify (JObj [(k1, JBool b); (k2, JStr s)]))
  = inr (JObj (obj_set (obj_set [] k1 (JBool b)) k2 (JStr s))).
Proof.
  cbn [stringify]. flatten_text. apply parse_whole. intro fuel.
  change (4 + fuel)%nat with (S (S (S (S fuel)))).
  rewrite parse_value_object.
  rewrite (parse_members_more _ _ k1 _ (quote k2 ++ String ":" (quote s ++ "}")) (JBool b)).
  - apply parse_members_last. apply parse_value_quote.
  - destruct b; [apply parse_value_true | apply parse_value_false].
Qed.

End JSONFacts.

(** ** The fuel of the JSON reader *)

Section ReaderFuel.
Import JS JSON.

Lemma skip_ws_length (s : string) :
  (String.length (skip_ws s) <= String.length s)%nat.
Proof.
  induction s as [|c s IH]; cbn; [lia|].
  destruct (is_ws c); cbn; lia.
Qed.

Lemma skip_ws_cons (s : string) (c : ascii) (rest : string) :
  skip_ws s = String c rest -> (String.length rest < String.length s)%nat.
Proof.
  intro H. pose proof (skip_ws_length s) as Hl. rewrite H in Hl. cbn in Hl. lia.
Qed.

Lemma strip_prefix_length (p s rest : string) :
  strip_prefix p s = Some rest ->
  String.length s = (String.length p + String.length rest)%nat.
Proof.
  revert s. induction p as [|a p IH]; intros s; cbn.
  - now intros [= ->].
  - destruct s as [|b s]; [discriminate|].
    destruct (Ascii.eqb a b); [|discriminate].
    intro H. apply IH in H. cbn. lia.
Qed.

Lemma prepend_some (p : string) (r : option (string * string))
    (text rest : string) :
  prepend p r = Some (text, rest) -> exists t, r = Some (t, rest).
Proof.
  destruct r as [[t r']|]; cbn; [|discriminate].
  intros [= _ ->]. now exists t.
Qed.

(** A string literal is read to its closing quote: at least one
    character is consumed. *)
Lemma parse_chars_length (n : nat) :
  forall s text rest,
    (String.length s <= n)%nat ->
    parse_chars s = Some (text, rest) ->
    (String.length rest < String.length s)%nat.
Proof.
  induction n as [|n IH]; intros s text rest Hn H.
  - destruct s; [discriminate | cbn in Hn; lia].
  - destruct s as [|c s]; [discriminate|]. cbn [parse_chars] in H.
    cbn [String.length] in *.
    destruct (Ascii.eqb c dquote); [injection H as _ ->; lia|].
    destruct (Ascii.eqb c "\").
    + destruct s as [|e s1]; [discriminate|]. cbn [String.length] in *.
      destruct (Ascii.eqb e "u").
      * destruct s1 as [|h1 [|h2 [|h3 [|h4 s2]]]]; try discriminate.
        cbn [String.length] in *. unfold unicode_escape in H.
        destruct (hex4 h1 h2 h3 h4) as [u|]; [|discriminate].
        destruct (if is_high_surrogate u then low_surrogate_escape s2 else None).
        -- apply prepend_some in H. destruct H as [t H].
           destruct s2 as [|? [|? [|? [|? [|? [|? s3]]]]]]; try discriminate.
           cbn [String.length] in *. apply IH in H; lia.
        -- apply prepend_some in H. destruct H as [t H]. apply IH in H; lia.
      * destruct (simple_escape e); [|discriminate].
        apply prepend_some in H. destruct H as [t H]. apply IH in H; lia.
    + destruct (N_of_ascii c <? 32)%N; [discriminate|].
      apply prepend_some in H. destruct H as [t H]. apply IH in H; lia.
Qed.

Lemma span_digits_length (s ds rest : string) :
  span_digits s = (ds, rest) ->
  String.length s = (String.length ds + String.length rest)%nat.
Proof.
  revert ds rest. induction s as [|c s IH]; intros ds rest; cbn.
  - now intros [= <- <-].
  - destruct (is_digit c).
    + destruct (span_digits s) as [ds' r']. intros [= <- <-].
      cbn. now rewrite (IH ds' r' eq_refl).
    + now intros [= <- <-].
Qed.

Lemma parse_fraction_length (s frac rest : string) :
  parse_fraction s = Some (frac, rest) ->
  (String.length rest <= String.length s)%nat.
Proof.
  unfold parse_fraction. destruct s as [|c s]; [now intros [= _ <-]|].
  destruct (Ascii.eqb c ".").
  - destruct (span_digits s) as [ds r] eqn:E. apply span_digits_length in E.
    destruct (is_empty ds); [discriminate|]. intros [= _ <-]. cbn. lia.
  - now intros [= _ <-].
Qed.

Lemma parse_exponent_length (s : string) (e : Z) (rest : string) :
  parse_exponent s = Some (e, rest) ->
  (String.length rest <= String.length s)%nat.
Proof.
  unfold parse_exponent. destruct s as [|c s]; [now intros [= _ <-]|].
  destruct (Ascii.eqb c "e" || Ascii.eqb c "E"); [|now intros [= _ <-]].
  destruct (match s with
            | String sg r =>
                if Ascii.eqb sg "+" then (false, r)
                else if Ascii.eqb sg "-" then (true, r) else (false, s)
            | EmptyString => (false, s)
            end) as [negative rest1] eqn:E1.
  assert (Hsign : (String.length rest1 <= String.length s)%nat).
  { destruct s as [|sg r]; [now injection E1 as _ <-|].
    destruct (Ascii.eqb sg "+"); [injection E1 as _ <-; cbn; lia|].
    destruct (Ascii.eqb sg "-"); injection E1 as _ <-; cbn; lia. }
  destruct (span_digits rest1) as [ds r] eqn:E2. apply span_digits_length in E2.
  destruct (is_empty ds); [discriminate|]. intros [= _ <-]. cbn. lia.
Qed.

Lemma parse_number_length (s : string) (n : JSNumber) (rest : string) :
  parse_number s = Some (n, rest) ->
  (String.length rest < String.length s)%nat.
Proof.
  unfold parse_number.
  destruct (match s with
            | String c r => if Ascii.eqb c "-" then (true, r) else (false, s)
            | EmptyString => (false, s)
            end) as [neg s1] eqn:E0.
  assert (H0 : (String.length s1 <= String.length s)%nat).
  { destruct s as [|c r]; [now injection E0 as _ <-|].
    destruct (Ascii.eqb c "-"); injection E0 as _ <-; cbn; lia. }
  destruct s1 as [|c r]; [discriminate|]. cbn [String.length] in H0.
  destruct (if Ascii.eqb c "0" then Some ("0", r)
            else if is_digit c
                 then let (ds, r0) := span_digits r in Some (String c ds, r0)
                 else None) as [[int s2]|] eqn:E1; [|discriminate].
  assert (H1 : (String.length s2 <= String.length r)%nat).
  { destruct (Ascii.eqb c "0"); [now injection E1 as _ <-|].
    destruct (is_digit c); [|discriminate].
    destruct (span_digits r) as [ds r0] eqn:E. apply span_digits_length in E.
    injection E1 as _ <-. lia. }
  destruct (parse_fraction s2) as [[frac s3]|] eqn:E2; [|discriminate].
  apply parse_fraction_length in E2.
  destruct (parse_exponent s3) as [[e s4]|] eqn:E3; [|discriminate].
  apply parse_exponent_length in E3.
  intros [= _ <-]. lia.
Qed.

Ltac reader_walk :=
  repeat match goal with
         | H : match ?x with _ => _ end = Some _ |- _ =>
             destruct x eqn:?; try discriminate H
         end.

Ltac reader_lengths IHV IHE IHM :=
  repeat match goal with
         | H : skip_ws _ = String _ _ |- _ => apply skip_ws_cons in H
         | H : parse_chars _ = Some _ |- _ =>
             apply (parse_chars_length _ _ _ _ (le_n _)) in H
         | H : strip_prefix _ _ = Some _ |- _ =>
             apply strip_prefix_length in H
         | H : parse_number _ = Some _ |- _ => apply parse_number_length in H
         | H : parse_value _ _ = Some _ |- _ => apply IHV in H
         | H : parse_elements _ _ _ = Some _ |- _ => apply IHE in H
         | H : parse_members _ _ _ = Some _ |- _ => apply IHM in H
         | H : Some _ = Some _ |- _ => injection H as <- <-
         end;
  cbn [String.length] in *; try lia.

(** Whatever is read consumes at least one character. *)
Lemma reader_consumes (fuel : nat) :
  (forall s v r, parse_value fuel s = Some (v, r) ->
                 (String.length r < String.length s)%nat)
  /\ (forall acc s v r, parse_elements fuel acc s = Some (v, r) ->
                        (String.length r < String.length s)%nat)
  /\ (forall acc s v r, parse_members fuel acc s = Some (v, r) ->
                        (String.length r < String.length s)%nat).
Proof.
  induction fuel as [|fuel (IHV & IHE & IHM)];
    [repeat split; intros; discriminate|].
  split; [|split].
  - intros s v r H. cbn [parse_value] in H.
    reader_walk; reader_lengths IHV IHE IHM.
  - intros acc s v r H. cbn [parse_elements] in H.
    reader_walk; reader_lengths IHV IHE IHM.
  - intros acc s v r H. cbn [parse_members] in H.
    reader_walk; reader_lengths IHV IHE IHM.
Qed.

Lemma parse_value_consumes (fuel : nat) (s : string) (v : JSValue) (r : string) :
  parse_value fuel s = Some (v, r) -> (String.length r < String.length s)%nat.
Proof. apply reader_consumes. Qed.

Lemma parse_elements_consumes (fuel : nat) (acc : list JSValue) (s : string)
    (v : JSValue) (r : string) :
  parse_elements fuel acc s = Some (v, r) ->
  (String.length r < String.length s)%nat.
Proof. apply reader_consumes. Qed.

Lemma parse_members_consumes (fuel : nat) (acc : list (string * JSValue))
    (s : string) (v : JSValue) (r : string) :
  parse_members fuel acc s = Some (v, r) ->
  (String.length r < String.length s)%nat.
Proof. apply reader_consumes. Qed.

Ltac reader_side :=
  reader_lengths parse_value_consumes parse_elements_consumes
                 parse_members_consumes.

Ltac reader_replay IHV IHE IHM :=
  repeat match goal with
         | E : parse_value _ ?s = Some (?v, ?r) |- context [parse_value ?f ?s] =>
             rewrite (IHV s v r E f) by reader_side; cbv beta iota
         | E : parse_elements _ ?a ?s = Some (?v, ?r)
           |- context [parse_elements ?f ?a ?s] =>
             rewrite (IHE a s v r E f) by reader_side; cbv beta iota
         | E : parse_members _ ?a ?s = Some (?v, ?r)
           |- context [parse_members ?f ?a ?s] =>
             rewrite (IHM a s v r E f) by reader_side; cbv beta iota
         | E : ?x = _ |- context [match ?x with _ => _ end] =>
             rewrite E; cbv beta iota
         end.

(** A result read with some fuel is read with any fuel that is at least
    the number of characters consumed. *)
Lemma reader_fuel_enough (fuel : nat) :
  (forall s v r, parse_value fuel s = Some (v, r) ->
     forall f, (String.length s - String.length r <= f)%nat ->
               parse_value f s = Some (v, r))
  /\ (forall acc s v r, parse_elements fuel acc s = Some (v, r) ->
        forall f, (String.length s - String.length r <= f)%nat ->
                  parse_elements f acc s = Some (v, r))
  /\ (forall acc s v r, parse_members fuel acc s = Some (v, r) ->
        forall f, (String.length s - String.length r <= f)%nat ->
                  parse_members f acc s = Some (v, r)).
Proof.
  induction fuel as [|fuel (IHV & IHE & IHM)];
    [repeat split; intros; discriminate|].
  split; [|split].
  - intros s v r H f Hf.
    pose proof (parse_value_consumes _ _ _ _ H) as Hlen.
    destruct f as [|f]; [lia|].
    cbn [parse_value] in H |- *.
    reader_walk; reader_replay IHV IHE IHM; congruence.
  - intros acc s v r H f Hf.
    pose proof (parse_elements_consumes _ _ _ _ _ H) as Hlen.
    destruct f as [|f]; [lia|].
    cbn [parse_elements] in H |- *.
    reader_walk; reader_replay IHV IHE IHM; congruence.
  - intros acc s v r H f Hf.
    pose proof (parse_members_consumes _ _ _ _ _ H) as Hlen.
    destruct f as [|f]; [lia|].
    cbn [parse_members] in H |- *.
    reader_walk; reader_replay IHV IHE IHM; congruence.
Qed.

(** The fuel [JSON.parse] starts with is enough: more fuel reads the
    same value, and a text is never rejected for lack of fuel. *)
Lemma parse_fuel_independent (text : string) (fuel : nat) :
  (2 * String.length text + 2 <= fuel)%nat ->
  parse_value fuel text = parse_value (2 * String.length text + 2) text.
Proof.
  intro Hfuel.
  destruct (parse_value fuel text) as [[v r]|] eqn:E.
  - symmetry. apply (proj1 (reader_fuel_enough _) _ _ _ E). lia.
  - destruct (parse_value (2 * String.length text + 2) text) as [[v r]|] eqn:E';
      [|reflexivity].
    rewrite (proj1 (reader_fuel_enough _) _ _ _ E' fuel) in E by lia.
    discriminate.
Qed.

End ReaderFuel.

(** ** Identical values and the agreement of the executors *)

Section Agreement.
Import JS Runtime.

(** Induction on a value, with the hypothesis for every element of an
    array and every property of an object. *)
Lemma JSValue_induction (P : JSValue -> Prop) :
  P JNull ->
  (forall b, P (JBool b)) ->
  (forall n, P (JNum n)) ->
  (forall s, P (JStr s)) ->
  (forall elems, Forall P elems -> P (JArr elems)) ->
  (forall props, Forall (fun kv => P (snd kv)) props -> P (JObj props)) ->
  forall v, P v.
Proof.
  intros Hnull Hbool Hnum Hstr Harr Hobj.
  fix go 1. intros [| b | n | s | elems | props].
  - exact Hnull.
  - apply Hbool.
  - apply Hnum.
  - apply Hstr.
  - apply Harr. induction elems as [|x elems IH]; constructor; [apply go | exact IH].
  - apply Hobj. induction props as [|[k x] props IH]; constructor; [apply go | exact IH].
Qed.

Lemma JSNumber_eqb_eq (x y : JSNumber) : JSNumber_eqb x y = true <-> x = y.
Proof.
  destruct x as [n1 d1 p1], y as [n2 d2 p2]. unfold JSNumber_eqb. cbn.
  rewrite !andb_true_iff, Bool.eqb_true_iff, String.eqb_eq, Z.eqb_eq.
  split.
  - intros [[-> ->] ->]. reflexivity.
  - intros [= -> -> ->]. auto.
Qed.

Lemma JSValue_eqb_eq (a : JSValue) : forall b, JSValue_eqb a b = true <-> a = b.
Proof.
  induction a as [| x | x | x | elems IH | props IH] using JSValue_induction;
    intros [| y | y | y | elems' | props']; cbn [JSValue_eqb];
    try (split; [discriminate | discriminate]);
    try (split; [reflexivity | reflexivity]).
  - rewrite Bool.eqb_true_iff. split; [now intros -> | now intros [= ->]].
  - rewrite JSNumber_eqb_eq. split; [now intros -> | now intros [= ->]].
  - rewrite String.eqb_eq. split; [now intros -> | now intros [= ->]].
  - revert elems'. induction IH as [|x elems Hx _ IHl]; intros [|y elems'].
    + split; reflexivity.
    + split; discriminate.
    + split; discriminate.
    + rewrite andb_true_iff, Hx. split.
      * intros [-> H]. apply IHl in H. now injection H as ->.
      * intros [= -> ->]. split; [reflexivity|]. now apply IHl.
  - revert props'. induction IH as [|[k x] props Hx _ IHl]; intros [|[k' y] props'].
    + split; reflexivity.
    + split; discriminate.
    + split; discriminate.
    + cbn [snd] in Hx. rewrite !andb_true_iff, String.eqb_eq, Hx. split.
      * intros [[-> ->] H]. apply IHl in H. now injection H as ->.
      * intros [= -> -> ->]. repeat split. now apply IHl.
Qed.


(** An accepted result is the result of every executor. *)
Lemma consensus_accepts (observations : list JSValue) (result : JSValue) :
  consensusIdenticalAggregation observations = Some result ->
  observations <> [] /\ forall o, In o observations -> o = result.
Proof.
  destruct observations as [|first others]; [discriminate|]. cbn.
  destruct (forallb (JSValue_eqb first) others) eqn:Hall; [|discriminate].
  intros [= <-]. split; [discriminate|].
  intros o [<- | Ho]; [reflexivity|].
  rewrite forallb_forall in Hall. symmetry. now apply JSValue_eqb_eq, Hall.
Qed.



End Agreement.

(** ** The model gateway *)

Section GatewayFacts.
Import JS Runtime Service.

Lemma parse_error_envelope (message : string) :
  JSON.parse_value_of (error_envelope message) = inr (JObj [("error", JStr message)]).
Proof.
  unfold error_envelope, JSON.parse_value_of. cbn [ToString bind ret].
  apply parse_stringify_text1.
Qed.

Lemma parse_forward_ok (bodyText : string) :
  JSON.parse_value_of (JStr (JSON.stringify (forward_ok bodyText)))
  = inr (forward_ok bodyText).
Proof.
  unfold forward_ok, JSON.parse_value_of. cbn [ToString bind ret].
  apply parse_stringify_bool_text.
Qed.

Lemma parse_forward_failed (message : string) :
  JSON.parse_value_of (JStr (JSON.stringify (forward_failed message)))
  = inr (forward_failed message).
Proof.
  unfold forward_failed, JSON.parse_value_of. cbn [ToString bind ret].
  apply parse_stringify_bool_text.
Qed.

(** An error envelope with a message is recognised as an error. *)
Lemma has_error_envelope (message : string) :
  is_empty message = false -> has_error (error_envelope message) = inr true.
Proof.
  intro Hm. unfold has_error. rewrite parse_error_envelope.
  cbn. rewrite Hm. reflexivity.
Qed.

Lemma stringify_object_truthy (props : list (string * JSValue)) :
  truthy (JStr (JSON.stringify (JObj props))) = true.
Proof. reflexivity. Qed.

(** What an executor hands to the aggregation is never falsy. *)
Lemma sendRequest_fetchAndParse_truthy (service : LLMService) (payload : JSValue)
    (sendRequester : HTTPSendRequester) :
  truthy (sendRequest_fetchAndParse service payload sendRequester) = true.
Proof.
  unfold sendRequest_fetchAndParse, error_envelope.
  repeat first
    [ reflexivity
    | assumption
    | match goal with
      | |- context [bind ?m _] => destruct m; cbn [bind ret]
      | |- context [if ?b then _ else _] => destruct b eqn:?
      | |- context [match ?o with Some _ => _ | None => _ end] => destruct o
      end ].
Qed.

(** [sendRequest] in terms of what the aggregation gives. *)
Lemma sendRequest_agreed {C : Type} (service : LLMService) (runtime : Runtime C)
    (payload result : JSValue) :
  HTTPClient_sendRequest runtime (sendRequest_fetchAndParse service payload)
  = inr result ->
  sendRequest service runtime payload
  = match has_error result with inr true => JNull | _ => result end.
Proof.
  intro H. unfold sendRequest. rewrite H.
  destruct (has_error result) as [e|[|]]; reflexivity.
Qed.

Lemma HTTPClient_sendRequest_inr {C : Type} (runtime : Runtime C)
    (fn : HTTPSendRequester -> JSValue) (result : JSValue) :
  HTTPClient_sendRequest runtime fn = inr result ->
  executors runtime <> [] /\
  forall x, In x (executors runtime) -> fn x = result.
Proof.
  unfold HTTPClient_sendRequest.
  destruct (consensusIdenticalAggregation _) as [r|] eqn:E; [|discriminate].
  intros [= <-]. destruct (consensus_accepts _ _ E) as [Hne Hall]. split.
  - intros Hnil. apply Hne. now rewrite Hnil.
  - intros x Hx. apply Hall, in_map, Hx.
Qed.

Lemma HTTPClient_sendRequest_inl {C : Type} (runtime : Runtime C)
    (fn : HTTPSendRequester -> JSValue) (e : JSError) :
  HTTPClient_sendRequest runtime fn = inl e -> e = consensus_failure runtime.
Proof.
  unfold HTTPClient_sendRequest.
  destruct (consensusIdenticalAggregation _); [discriminate|].
  now intros [= <-].
Qed.

(** A completion is never falsy: [sendRequest] gives [null] or a value
    that passes [if (!response)]. *)
Lemma sendRequest_null_or_truthy {C : Type} (service : LLMService)
    (runtime : Runtime C) (payload : JSValue) :
  sendRequest service runtime payload = JNull
  \/ truthy (sendRequest service runtime payload) = true.
Proof.
  destruct (HTTPClient_sendRequest runtime (sendRequest_fetchAndParse service payload))
    as [e|result] eqn:E.
  - left. unfold sendRequest. now rewrite E.
  - rewrite (sendRequest_agreed _ _ _ _ E).
    destruct (HTTPClient_sendRequest_inr _ _ _ E) as [Hne Hall].
    assert (Ht : truthy result = true).
    { destruct (executors runtime) as [|x xs]; [congruence|].
      rewrite <- (Hall x (or_introl eq_refl)).
      apply sendRequest_fetchAndParse_truthy. }
    destruct (has_error result) as [e|[|]]; auto.
Qed.


End GatewayFacts.

Section GatewayClaims.
Import JS Runtime Service Examples.



(** C10.  [getTradingDecisions] returns [null] when [sendRequest]
    returns [null], and when the completion does not read as JSON; in
    that case the completion is lost, where [interpretResponse] keeps
    it in [{raw_response}].  When the completion reads as JSON, the
    value read is returned as it is, whatever its shape. *)
Theorem getTradingDecisions_outcome {C : Type} (service : LLMService)
    (runtime : Runtime C) (payload : JSValue) :
  let response := sendRequest service runtime payload in
  (response = JNull -> getTradingDecisions service runtime payload = JNull)
  /\ (forall e,
        response <> JNull ->
        JSON.parse_value_of response = inl e ->
        getTradingDecisions service runtime payload = JNull
        /\ Main.interpretResponse response = JObj [("raw_response", response)])
  /\ (forall decisions,
        response <> JNull ->
        JSON.parse_value_of response = inr decisions ->
        getTradingDecisions service runtime payload = decisions).
Proof.
  cbv zeta. unfold getTradingDecisions.
  destruct (sendRequest_null_or_truthy service runtime payload) as [Hnull | Ht].
  - rewrite Hnull. split; [reflexivity|]. split; intros; congruence.
  - rewrite Ht. cbn [negb]. split; [|split].
    + intros Hnull. rewrite Hnull in Ht. discriminate.
    + intros e _ He. unfold Main.interpretResponse. now rewrite He.
    + intros decisions _ ->. reflexivity.
Qed.

End GatewayClaims.

(** ** The callback forwarder *)

Section ForwarderFacts.
Import JS Runtime Service.

(** What an executor reports for a callback post. *)
Lemma sendToServer_fetchAndParse_cases (serverUrl : string) (data : JSValue)
    (headers : option (list (string * string))) (x : HTTPSendRequester) :
  (exists resp,
      x (callback_request serverUrl data headers) = inr resp
      /\ (200 <= statusCode resp < 300)%N
      /\ sendToServer_fetchAndParse serverUrl data headers x
         = JStr (JSON.stringify (forward_ok (resp_body resp))))
  \/ (exists resp,
        x (callback_request serverUrl data headers) = inr resp
        /\ ~ (200 <= statusCode resp < 300)%N
        /\ sendToServer_fetchAndParse serverUrl data headers x
           = JStr (JSON.stringify
                     (forward_failed ("HTTP " ++ decimal_of_N (statusCode resp)
                                      ++ ": " ++ resp_body resp))))
  \/ (exists e,
        x (callback_request serverUrl data headers) = inl e
        /\ sendToServer_fetchAndParse serverUrl data headers x
           = JStr (JSON.stringify (forward_failed (error_text e)))).
Proof.
  unfold sendToServer_fetchAndParse.
  destruct (x (callback_request serverUrl data headers)) as [e|resp]; cbn [bind].
  - right. right. exists e. split; reflexivity.
  - destruct ((200 <=? statusCode resp)%N && (statusCode resp <? 300)%N) eqn:Hrange.
    + left. exists resp. apply andb_true_iff in Hrange. destruct Hrange as [H1 H2].
      apply N.leb_le in H1. apply N.ltb_lt in H2. repeat split; assumption.
    + right. left. exists resp. repeat split.
      intros [H1 H2]. apply N.leb_le in H1. apply N.ltb_lt in H2.
      rewrite H1, H2 in Hrange. discriminate.
Qed.

(** The result of [sendToServer] has one of two shapes, and it reports
    success only when every executor received a status code in
    [200, 300) with the same body. *)
Lemma sendToServer_shapes {C : Type} (runtime : Runtime C) (serverUrl : string)
    (data : JSValue) (headers : option (list (string * string))) :
  (exists body,
      sendToServer runtime serverUrl data headers = forward_ok body
      /\ forall x, In x (executors runtime) ->
           exists code,
             x (callback_request serverUrl data headers) = inr (mkResponse code body)
             /\ (200 <= code < 300)%N)
  \/ (exists message,
         sendToServer runtime serverUrl data headers = forward_failed message).
Proof.
  unfold sendToServer.
  destruct (HTTPClient_sendRequest runtime
              (sendToServer_fetchAndParse serverUrl data headers))
    as [e|result] eqn:E; cbn [bind].
  - right. now exists (error_text e).
  - destruct (HTTPClient_sendRequest_inr _ _ _ E) as [Hne Hall].
    destruct (executors runtime) as [|x0 xs] eqn:Hx; [congruence|].
    pose proof (Hall x0 (or_introl eq_refl)) as H0.
    destruct (sendToServer_fetchAndParse_cases serverUrl data headers x0)
      as [(resp & Hr & Hrange & Hv) | [(resp & Hr & Hrange & Hv) | (e & Hr & Hv)]].
    + left. exists (resp_body resp). rewrite <- H0, Hv, parse_forward_ok.
      split; [reflexivity|].
      intros x Hin. pose proof (Hall x Hin) as Hxr. rewrite <- H0, Hv in Hxr.
      assert (Hp : JSON.parse_value_of
                     (sendToServer_fetchAndParse serverUrl data headers x)
                   = inr (forward_ok (resp_body resp)))
        by (rewrite Hxr; apply parse_forward_ok).
      destruct (sendToServer_fetchAndParse_cases serverUrl data headers x)
        as [(r & Hr' & Hrange' & Hv') | [(r & Hr' & _ & Hv') | (e & Hr' & Hv')]].
      * rewrite Hv', parse_forward_ok in Hp. injection Hp as Hbody.
        exists (statusCode r). split; [|exact Hrange'].
        rewrite Hr'. destruct r as [code body]. cbn in *. now subst.
      * rewrite Hv', parse_forward_failed in Hp. discriminate.
      * rewrite Hv', parse_forward_failed in Hp. discriminate.
    + right. eexists. rewrite <- H0, Hv, parse_forward_failed. reflexivity.
    + right. eexists. rewrite <- H0, Hv, parse_forward_failed. reflexivity.
Qed.


(** *** Headers *)

Lemma obj_get_absent {A : Type} (k : string) (props : list (string * A)) :
  ~ In k (map fst props) -> obj_get k props = None.
Proof.
  induction props as [|[k0 v0] props IH]; cbn; [reflexivity|].
  intro Hnot. destruct (String.eqb_spec k0 k) as [-> | Hne].
  - exfalso. apply Hnot. now left.
  - apply IH. intro Hin. apply Hnot. now right.
Qed.

Lemma obj_get_replace {A : Type} (k k' : string) (v : A) (props : list (string * A)) :
  obj_get k (obj_replace k' v props)
  = if String.eqb k' k
    then match obj_get k' props with Some _ => Some v | None => None end
    else obj_get k props.
Proof.
  induction props as [|[k0 v0] props IH]; cbn.
  - now destruct (String.eqb k' k).
  - destruct (String.eqb_spec k0 k') as [-> | Hne]; cbn.
    + destruct (String.eqb_spec k' k) as [-> | Hne']; reflexivity.
    + rewrite IH. destruct (String.eqb_spec k' k) as [-> | Hne'].
      * destruct (String.eqb_spec k0 k); [congruence | reflexivity].
      * reflexivity.
Qed.

Lemma obj_get_insert_index {A : Type} (i : N) (k k' : string) (v : A)
    (props : list (string * A)) :
  obj_get k' props = None ->
  obj_get k (obj_insert_index i k' v props)
  = if String.eqb k' k then Some v else obj_get k props.
Proof.
  induction props as [|[k0 v0] props IH]; cbn; [reflexivity|].
  destruct (String.eqb_spec k0 k') as [-> | Hne]; [discriminate|]. intro Habs.
  destruct (array_index k0) as [j|]; [destruct (j <? i)%N|]; cbn;
    try reflexivity.
  rewrite (IH Habs).
  destruct (String.eqb_spec k' k) as [-> | Hne'];
    [destruct (String.eqb_spec k0 k); [congruence | reflexivity] | reflexivity].
Qed.

Lemma obj_get_append {A : Type} (k k' : string) (v : A) (props : list (string * A)) :
  obj_get k' props = None ->
  obj_get k (props ++ [(k', v)])%list
  = if String.eqb k' k then Some v else obj_get k props.
Proof.
  induction props as [|[k0 v0] props IH]; cbn; [reflexivity|].
  destruct (String.eqb_spec k0 k') as [-> | Hne]; [discriminate|]. intro Habs.
  rewrite (IH Habs).
  destruct (String.eqb_spec k' k) as [-> | Hne'];
    [destruct (String.eqb_spec k0 k); [congruence | reflexivity] | reflexivity].
Qed.

(** Reading a property after one was set. *)
Lemma obj_get_set {A : Type} (k k' : string) (v : A) (props : list (string * A)) :
  obj_get k (obj_set props k' v)
  = if String.eqb k' k then Some v else obj_get k props.
Proof.
  unfold obj_set, obj_has.
  destruct (obj_get k' props) as [old|] eqn:Hold.
  - rewrite obj_get_replace, Hold. reflexivity.
  - destruct (array_index k') as [i|].
    + now apply obj_get_insert_index.
    + now apply obj_get_append.
Qed.

(** Reading a property of [{ ...target, ...source }]. *)
Lemma obj_get_spread {A : Type} (k : string) (source : list (string * A)) :
  forall target,
    NoDup (map fst source) ->
    obj_get k (obj_spread target source)
    = match obj_get k source with
      | Some v => Some v
      | None => obj_get k target
      end.
Proof.
  unfold obj_spread.
  induction source as [|[k0 v0] source IH]; intros target Hnd; cbn; [reflexivity|].
  inversion Hnd as [|? ? Hnot Hnd']; subst.
  rewrite (IH _ Hnd'). cbn [fst snd]. rewrite obj_get_set.
  destruct (String.eqb_spec k0 k) as [-> | Hne]; [|reflexivity].
  now rewrite (obj_get_absent k source Hnot).
Qed.

(** C4, as amended.  The request to the callback server always has a
    [Content-Type] header, and it has every header the caller supplies,
    with the caller's value.  The value of [Content-Type] is
    [application/json] unless the caller supplies a [Content-Type] of
    its own, which then takes its place. *)
Theorem callback_request_headers (serverUrl : string) (data : JSValue)
    (headers : list (string * string)) (k : string) :
  NoDup (map fst headers) ->
  obj_get k (req_headers (callback_request serverUrl data (Some headers)))
  = match obj_get k headers with
    | Some v => Some v
    | None => if String.eqb k "Content-Type" then Some "application/json" else None
    end
  /\ obj_get k (req_headers (callback_request serverUrl data None))
     = if String.eqb k "Content-Type" then Some "application/json" else None.
Proof.
  intro Hnd. cbn [callback_request req_headers]. split.
  - rewrite (obj_get_spread k headers _ Hnd). cbn [obj_get].
    now rewrite String.eqb_sym.
  - cbn. now rewrite String.eqb_sym.
Qed.

End ForwarderFacts.

(** ** The HTTP-trigger handler *)

Section HandlerFacts.
Import JS Runtime Service Main.

(** A value other than [null] has properties to read. *)
Lemma get_succeeds (v : JSValue) (k k' : string) (a : option JSValue) :
  get v k = inr a -> exists b, get v k' = inr b.
Proof.
  destruct v; cbn; try discriminate; intros _; try (eexists; reflexivity).
  - destruct (String.eqb k' "length"); [eexists; reflexivity|].
    destruct (array_index k'); eexists; reflexivity.
  - destruct (String.eqb k' "length"); [eexists; reflexivity|].
    destruct (array_index k'); eexists; reflexivity.
Qed.

(** A falsy value converts to text. *)
Lemma falsy_ToString (o : option JSValue) :
  truthy_opt o = false -> exists line, ToString_opt o = inr line.
Proof.
  destruct o as [[| b | n | s | elems | props]|]; cbn; try discriminate;
    intros _; eexists; reflexivity.
Qed.

(** Reporting the outcome of the callback does not throw. *)
Lemma log_server_result_done {C : Type} (runtime : Runtime C) (serverUrl : string)
    (data : JSValue) (headers : option (list (string * string))) :
  log_server_result (sendToServer runtime serverUrl data headers) = inr tt.
Proof.
  destruct (sendToServer_shapes runtime serverUrl data headers)
    as [(body & -> & _) | (message & ->)]; reflexivity.
Qed.

(** The handler, once the payload is decoded and the first log line is
    written. *)
Lemma onHttpTrigger_decoded (runtime : Runtime Config) (payload : HTTPPayload)
    (requestPayload : JSValue) (model messages : option JSValue) (line : string) :
  decodeJson (input payload) = inr requestPayload ->
  get requestPayload "model" = inr model ->
  ToString_opt model = inr line ->
  get requestPayload "messages" = inr messages ->
  onHttpTrigger runtime payload
  = if negb (truthy_opt model) || negb (truthy_opt messages)
    then ([], inr missing_data_error)
    else
      let service := new_LLMService (Some (openRouterApiKey (config runtime))) in
      let response := sendRequest service runtime requestPayload in
      let url := callbackUrl (config runtime) in
      let data := JObj [("llm_response", interpretResponse response);
                        ("timestamp", JStr (now_ISO runtime))] in
      if negb (truthy response)
      then ([Call_sendRequest requestPayload], inr llm_failure_error)
      else if negb (is_empty url)
      then ([Call_sendRequest requestPayload; Call_sendToServer url data],
            inr (JStr (JSON.stringify
                         (JObj [("llm_response", interpretResponse response);
                                ("server_callback",
                                 sendToServer runtime url data None)]))))
      else ([Call_sendRequest requestPayload], inr response).
Proof.
  intros Hdecode Hmodel Hline Hmessages.
  unfold onHttpTrigger, and_then, lift, calling, done.
  rewrite Hdecode, Hmodel. unfold log at 1. cbn [template bind ret].
  rewrite Hline. cbn [bind ret]. rewrite Hmessages.
  destruct (negb (truthy_opt model) || negb (truthy_opt messages)); [reflexivity|].
  cbv zeta.
  destruct (negb (truthy (sendRequest _ runtime requestPayload))); [reflexivity|].
  destruct (negb (is_empty (callbackUrl (config runtime)))); [|reflexivity].
  rewrite log_server_result_done. reflexivity.
Qed.

End HandlerFacts.

Section HandlerClaims.
Import JS Runtime Service Main Examples.

Lemma onHttpTrigger_raises_decode (runtime : Runtime Config) (payload : HTTPPayload)
    (e : JSError) :
  decodeJson (input payload) = inl e ->
  onHttpTrigger runtime payload = ([], inl e).
Proof.
  intro H. unfold onHttpTrigger, and_then, lift. now rewrite H.
Qed.

Lemma onHttpTrigger_raises_get (runtime : Runtime Config) (payload : HTTPPayload)
    (requestPayload : JSValue) (e : JSError) :
  decodeJson (input payload) = inr requestPayload ->
  get requestPayload "model" = inl e ->
  onHttpTrigger runtime payload = ([], inl e).
Proof.
  intros H1 H2. unfold onHttpTrigger, and_then, lift. now rewrite H1, H2.
Qed.

Lemma onHttpTrigger_raises_log (runtime : Runtime Config) (payload : HTTPPayload)
    (requestPayload : JSValue) (model : option JSValue) (e : JSError) :
  decodeJson (input payload) = inr requestPayload ->
  get requestPayload "model" = inr model ->
  ToString_opt model = inl e ->
  onHttpTrigger runtime payload = ([], inl e).
Proof.
  intros H1 H2 H3. unfold onHttpTrigger, and_then, lift. rewrite H1, H2.
  unfold log. cbn [template bind ret]. now rewrite H3.
Qed.

(** C1, as amended.  When the payload decodes to a value other than
    [null] whose [model] can be written to the log line, and [model] or
    [messages] is missing or falsy (for [messages]: absent, [null],
    [false], [0] or the empty text, but not the empty array), the
    handler returns exactly the missing-data error and calls neither
    [sendRequest] nor [sendToServer]. *)
Theorem missing_fields_short_circuit (runtime : Runtime Config)
    (payload : HTTPPayload) (requestPayload : JSValue)
    (model messages : option JSValue) (line : string) :
  decodeJson (input payload) = inr requestPayload ->
  get requestPayload "model" = inr model ->
  get requestPayload "messages" = inr messages ->
  ToString_opt model = inr line ->
  truthy_opt model = false \/ truthy_opt messages = false ->
  onHttpTrigger runtime payload
  = ([], inr (JStr (JSON.stringify
                      (JObj [("error",
                              JStr "Missing required data: model and messages are required")])))).
Proof.
  intros Hdecode Hmodel Hmessages Hline Hfalsy.
  rewrite (onHttpTrigger_decoded _ _ _ _ _ _ Hdecode Hmodel Hline Hmessages).
  destruct Hfalsy as [-> | ->]; cbn [negb orb]; [reflexivity|].
  rewrite orb_true_r. reflexivity.
Qed.

(** C2, as amended.  When the payload decodes to a JSON value other than
    [null] whose [model] can be written to the log line, the handler
    returns a value: no exception leaves it, whatever the executors
    do. *)
Theorem onHttpTrigger_returns (runtime : Runtime Config) (payload : HTTPPayload)
    (requestPayload : JSValue) (model : option JSValue) (line : string) :
  decodeJson (input payload) = inr requestPayload ->
  get requestPayload "model" = inr model ->
  ToString_opt model = inr line ->
  exists calls value, onHttpTrigger runtime payload = (calls, inr value).
Proof.
  intros Hdecode Hmodel Hline.
  destruct (get_succeeds _ _ "messages" _ Hmodel) as [messages Hmessages].
  rewrite (onHttpTrigger_decoded _ _ _ _ _ _ Hdecode Hmodel Hline Hmessages).
  cbv zeta.
  repeat match goal with
         | |- context [if ?b then _ else _] => destruct b
         end; eexists; eexists; reflexivity.
Qed.

(** What reading the completion gives. *)
Lemma interpretResponse_cases (response : JSValue) :
  (exists parsed,
      JSON.parse_value_of response = inr parsed
      /\ interpretResponse response = parsed)
  \/ interpretResponse response = JObj [("raw_response", response)].
Proof.
  unfold interpretResponse.
  destruct (JSON.parse_value_of response) as [e|parsed]; cbn [bind];
    [now right|].
  repeat first
    [ (right; reflexivity)
    | (left; exists parsed; split; reflexivity)
    | match goal with
      | |- context [bind ?m _] => destruct m; cbn [bind ret]
      | |- context [match ?o with Some _ => _ | None => _ end] => destruct o
      | |- context [if ?b then _ else _] => destruct b
      end ].
Qed.

(** C3, as amended.  Reading the completion never throws
    ([interpretResponse] is a function).  It gives either the value
    [JSON.parse] reads from the completion, of whatever shape, or the
    wrapper [{raw_response}] around the completion itself.  A value the
    handler returns is the missing-data error, the gateway-failure
    error, the summary whose [llm_response] is that reading of the
    completion (callback configured), or the completion itself (no
    callback configured). *)
Theorem interpretation_outcome :
  (forall response,
      (exists parsed,
          JSON.parse_value_of response = inr parsed
          /\ interpretResponse response = parsed)
      \/ interpretResponse response = JObj [("raw_response", response)])
  /\ (forall (runtime : Runtime Config) (payload : HTTPPayload)
             (calls : list Call) (out : JSValue),
        onHttpTrigger runtime payload = (calls, inr out) ->
        exists requestPayload,
          decodeJson (input payload) = inr requestPayload
          /\ let service := new_LLMService (Some (openRouterApiKey (config runtime))) in
             let response := sendRequest service runtime requestPayload in
             let url := callbackUrl (config runtime) in
             out = missing_data_error
             \/ out = llm_failure_error
             \/ (is_empty url = false
                 /\ exists serverResult,
                      out = JStr (JSON.stringify
                                    (JObj [("llm_response", interpretResponse response);
                                           ("server_callback", serverResult)])))
             \/ (is_empty url = true /\ out = response)).
Proof.
  split; [exact interpretResponse_cases|].
  intros runtime payload calls out Hrun.
  destruct (decodeJson (input payload)) as [e|requestPayload] eqn:Hdecode.
  { rewrite (onHttpTrigger_raises_decode _ _ _ Hdecode) in Hrun. discriminate. }
  destruct (get requestPayload "model") as [e|model] eqn:Hmodel.
  { rewrite (onHttpTrigger_raises_get _ _ _ _ Hdecode Hmodel) in Hrun. discriminate. }
  destruct (ToString_opt model) as [e|line] eqn:Hline.
  { rewrite (onHttpTrigger_raises_log _ _ _ _ _ Hdecode Hmodel Hline) in Hrun.
    discriminate. }
  destruct (get_succeeds _ _ "messages" _ Hmodel) as [messages Hmessages].
  rewrite (onHttpTrigger_decoded _ _ _ _ _ _ Hdecode Hmodel Hline Hmessages) in Hrun.
  exists requestPayload. split; [reflexivity|].
  cbv zeta in Hrun |- *.
  destruct (negb (truthy_opt model) || negb (truthy_opt messages)).
  { injection Hrun as _ <-. now left. }
  destruct (truthy (sendRequest _ runtime requestPayload)) eqn:Ht; cbn [negb] in Hrun.
  2:{ injection Hrun as _ <-. right. now left. }
  destruct (is_empty (callbackUrl (config runtime))) eqn:Hurl; cbn [negb] in Hrun.
  - injection Hrun as _ <-. right. right. right. now split.
  - injection Hrun as _ <-. right. right. left.
    split; [reflexivity|]. eexists. reflexivity.
Qed.

End HandlerClaims.

(** ** The claims at concrete inputs *)

Section ConcreteRuns.
Import JS Runtime Service Main Examples.

(** C1, counterexample.  The payload [{"model":"m","messages":[]}] has
    an empty [messages] sequence, yet the handler calls [sendRequest]
    and returns the completion instead of the missing-data error. *)
Lemma empty_messages_reach_gateway :
  let runtime := example_runtime "" [respond 200 (completion_body "hold")] in
  decodeJson (input (payload_of empty_messages_payload)) = inr empty_messages_payload
  /\ get empty_messages_payload "messages" = inr (Some (JArr []))
  /\ onHttpTrigger runtime (payload_of empty_messages_payload)
     = ([Call_sendRequest empty_messages_payload], inr (JStr "hold")).
Proof. vm_compute. repeat split. Qed.

Lemma missing_fields_short_circuit_witness :
  let runtime := example_runtime "" [respond 200 (completion_body "hold")] in
  get no_messages_payload "messages" = inr None
  /\ onHttpTrigger runtime (payload_of no_messages_payload)
     = ([], inr missing_data_error).
Proof.
  split; [reflexivity|].
  apply (missing_fields_short_circuit _ _ no_messages_payload
           (Some (JStr "m")) None "m").
  - vm_compute. reflexivity.
  - reflexivity.
  - reflexivity.
  - reflexivity.
  - right. reflexivity.
Defined.

(** C2, counterexample.  A payload that is not JSON, and the payload
    [null], make the handler raise. *)
Lemma onHttpTrigger_raises :
  let runtime := example_runtime "" [respond 200 (completion_body "hold")] in
  onHttpTrigger runtime (payload_text "not json")
  = ([], inl (SyntaxError "unexpected token"))
  /\ onHttpTrigger runtime (payload_text "null")
     = ([], inl (TypeError "cannot read property 'model' of null")).
Proof. vm_compute. split; reflexivity. Qed.

Lemma onHttpTrigger_returns_witness :
  exists calls value,
    onHttpTrigger (example_runtime "" [unreachable]) (payload_of good_payload)
    = (calls, inr value).
Proof.
  apply (onHttpTrigger_returns _ _ good_payload (Some (JStr "m")) "m").
  - vm_compute. reflexivity.
  - reflexivity.
  - reflexivity.
Defined.

(** C3, counterexample.  The completion [42] reads as the number 42,
    which is neither a [TradingDecisionResponse] nor the wrapper, and
    that number is the [llm_response] of the handler's output. *)
Lemma completion_not_a_decision :
  let runtime :=
    example_runtime "https://example.org/callback"
      [respond 200 (completion_body "42")] in
  interpretResponse (JStr "42") = JNum (number_of_nat 42)
  /\ is_TradingDecisionResponse (interpretResponse (JStr "42")) = false
  /\ interpretResponse (JStr "42") <> JObj [("raw_response", JStr "42")]
  /\ snd (onHttpTrigger runtime (payload_of good_payload))
     = inr (JStr (JSON.stringify
                    (JObj [("llm_response", JNum (number_of_nat 42));
                           ("server_callback", forward_ok (completion_body "42"))]))).
Proof. vm_compute. repeat split. discriminate. Qed.

Lemma interpretation_outcome_witness :
  let runtime :=
    example_runtime "https://example.org/callback"
      [respond 200 (completion_body "hold")] in
  let out :=
    JStr (JSON.stringify
            (JObj [("llm_response", JObj [("raw_response", JStr "hold")]);
                   ("server_callback", forward_ok (completion_body "hold"))])) in
  snd (onHttpTrigger runtime (payload_of good_payload)) = inr out
  /\ exists requestPayload,
       decodeJson (input (payload_of good_payload)) = inr requestPayload
       /\ let service := new_LLMService (Some (openRouterApiKey (config runtime))) in
          let response := sendRequest service runtime requestPayload in
          let url := callbackUrl (config runtime) in
          out = missing_data_error
          \/ out = llm_failure_error
          \/ (is_empty url = false
              /\ exists serverResult,
                   out = JStr (JSON.stringify
                                 (JObj [("llm_response", interpretResponse response);
                                        ("server_callback", serverResult)])))
          \/ (is_empty url = true /\ out = response).
Proof.
  cbv zeta. split; [vm_compute; reflexivity|].
  apply (proj2 interpretation_outcome
           (example_runtime "https://example.org/callback"
              [respond 200 (completion_body "hold")])
           (payload_of good_payload)
           (fst (onHttpTrigger (example_runtime "https://example.org/callback"
                                  [respond 200 (completion_body "hold")])
                   (payload_of good_payload)))).
  vm_compute. reflexivity.
Defined.

(** C4, counterexample.  A caller that supplies its own [Content-Type]
    displaces the default one: the request no longer has the entry
    [Content-Type: application/json]. *)
Lemma caller_content_type_displaces_default :
  let req := callback_request "https://example.org/callback" JNull
               (Some [("Content-Type", "text/plain")]) in
  req_headers req = [("Content-Type", "text/plain")]
  /\ ~ In ("Content-Type", "application/json") (req_headers req).
Proof.
  cbv zeta. split; [reflexivity|].
  cbn. intros [H | []]. discriminate.
Qed.

Lemma callback_request_headers_witness :
  obj_get "X-Token"
    (req_headers (callback_request "https://example.org/callback" JNull
                    (Some [("X-Token", "abc")]))) = Some "abc"
  /\ obj_get "Content-Type"
       (req_headers (callback_request "https://example.org/callback" JNull
                       (Some [("X-Token", "abc")]))) = Some "application/json".
Proof.
  assert (Hnd : NoDup (map fst [("X-Token", "abc")]))
    by (repeat constructor; intros []).
  split.
  - exact (proj1 (callback_request_headers "https://example.org/callback" JNull
                    [("X-Token", "abc")] "X-Token" Hnd)).
  - exact (proj1 (callback_request_headers "https://example.org/callback" JNull
                    [("X-Token", "abc")] "Content-Type" Hnd)).
Defined.






Lemma getTradingDecisions_outcome_witness :
  getTradingDecisions example_service
    (example_runtime "" [respond 404 "Not Found"]) good_payload = JNull
  /\ (getTradingDecisions example_service
        (example_runtime "" [respond 200 (completion_body "hold")]) good_payload
      = JNull
      /\ interpretResponse (JStr "hold") = JObj [("raw_response", JStr "hold")])
  /\ getTradingDecisions example_service
       (example_runtime "" [respond 200 (completion_body "42")]) good_payload
     = JNum (number_of_nat 42).
Proof.
  split; [|split].
  - apply (proj1 (getTradingDecisions_outcome example_service
                    (example_runtime "" [respond 404 "Not Found"]) good_payload)).
    vm_compute. reflexivity.
  - apply (proj1 (proj2 (getTradingDecisions_outcome example_service
                           (example_runtime "" [respond 200 (completion_body "hold")])
                           good_payload))
             (SyntaxError "unexpected token")).
    + vm_compute. discriminate.
    + vm_compute. reflexivity.
  - apply (proj2 (proj2 (getTradingDecisions_outcome example_service
                           (example_runtime "" [respond 200 (completion_body "42")])
                           good_payload))).
    + vm_compute. discriminate.
    + vm_compute. reflexivity.
Defined.

End ConcreteRuns.

(* ================================================================== *)
(** * Further properties                                               *)
(* ================================================================== *)

(** ** The binary codec *)

Section CodecMore.
Import Base64 Scenarios.

Lemma length_append (s t : string) :
  String.length (s ++ t) = (String.length s + String.length t)%nat.
Proof. induction s as [|c s IH]; cbn; [reflexivity | now rewrite IH]. Qed.

Lemma length_char_at (n : N) : (n < 64)%N -> String.length (char_at n) = 1%nat.
Proof. intro Hn. now destruct (char_at_symbol n Hn) as (c & -> & _). Qed.



(** The four sextets of a group are below 64. *)
Lemma sextets_in_range (b1 b2 b3 : byte) :
  (N.shiftr (Byte.to_N b1) 2 < 64)%N
  /\ (N.lor (N.shiftl (N.land (Byte.to_N b1) 3) 4) (N.shiftr (Byte.to_N b2) 4) < 64)%N
  /\ (N.lor (N.shiftl (N.land (Byte.to_N b2) 15) 2) (N.shiftr (Byte.to_N b3) 6) < 64)%N
  /\ (N.land (Byte.to_N b3) 63 < 64)%N
  /\ (N.shiftl (N.land (Byte.to_N b1) 3) 4 < 64)%N
  /\ (N.shiftl (N.land (Byte.to_N b2) 15) 2 < 64)%N.
Proof.
  destruct (split3 (Byte.to_N b3) (to_N_lt b3)) as (_ & N1 & N2).
  destruct (split2 (Byte.to_N b2) _ (to_N_lt b2) N2) as (_ & _ & M1 & M2).
  destruct (split1 (Byte.to_N b1) _ (to_N_lt b1) M2) as (_ & _ & L1 & L2).
  destruct (split2 (Byte.to_N b2) 0 (to_N_lt b2) eq_refl) as (_ & _ & M0 & _).
  destruct (split1 (Byte.to_N b1) 0 (to_N_lt b1) eq_refl) as (_ & _ & _ & L0).
  rewrite N.lor_0_r in M0, L0. repeat split; assumption.
Qed.

(** X1.  The encoding of [n] bytes has [4 * ceil(n / 3)] characters. *)
Theorem toBase64_length (bytes : list byte) :
  String.length (toBase64 bytes) = (4 * ((List.length bytes + 2) / 3))%nat.
Proof.
  rewrite toBase64_groups.
  induction bytes as [|b1|b1 b2|b1 b2 b3 rest IH] using list_ind3.
  - reflexivity.
  - destruct (sextets_in_range b1 b1 b1) as (H1 & _ & _ & _ & H5 & _).
    cbn [rfc4648_encode]. unfold quad1.
    rewrite !length_append, !length_char_at by assumption. reflexivity.
  - destruct (sextets_in_range b1 b2 b2) as (H1 & H2 & _ & _ & _ & H6).
    cbn [rfc4648_encode]. unfold quad2.
    rewrite !length_append, !length_char_at by assumption. reflexivity.
  - destruct (sextets_in_range b1 b2 b3) as (H1 & H2 & H3 & H4 & _).
    cbn [rfc4648_encode]. unfold quad3.
    rewrite !length_append, !length_char_at, IH by assumption.
    replace (List.length (b1 :: b2 :: b3 :: rest) + 2)%nat
      with ((List.length rest + 2) + 1 * 3)%nat by (cbn [List.length]; lia).
    rewrite Nat.div_add by lia. lia.
Qed.


(** X3.  Two byte sequences with the same encoding are the same
    sequence. *)
Theorem toBase64_injective (a b : list byte) :
  toBase64 a = toBase64 b -> a = b.
Proof.
  intro H. rewrite !toBase64_groups in H.
  apply (f_equal rfc4648_decode) in H. rewrite !decode_encode in H.
  now injection H.
Qed.

Lemma toBase64_injective_witness :
  toBase64 (list_byte_of_string "hi") = toBase64 [Byte.x68; Byte.x69]
  /\ list_byte_of_string "hi" = [Byte.x68; Byte.x69].
Proof.
  split; [reflexivity|].
  apply (toBase64_injective (list_byte_of_string "hi") [Byte.x68; Byte.x69]).
  reflexivity.
Defined.

(** X4.  After a whole number of three-byte groups the encoding goes on
    as if it started afresh: the encoding of [a ++ b] is the encoding
    of [a] followed by that of [b] when the length of [a] is a multiple
    of three. *)
Theorem toBase64_app (a b : list byte) :
  (List.length a mod 3 = 0)%nat ->
  toBase64 (a ++ b) = toBase64 a ++ toBase64 b.
Proof.
  rewrite !toBase64_groups.
  induction a as [|a1|a1 a2|a1 a2 a3 rest IH] using list_ind3; intro Hlen.
  - reflexivity.
  - discriminate.
  - discriminate.
  - change ((a1 :: a2 :: a3 :: rest) ++ b)%list
      with (a1 :: a2 :: a3 :: (rest ++ b))%list.
    cbn [rfc4648_encode]. rewrite IH, append_assoc; [reflexivity|].
    change (List.length (a1 :: a2 :: a3 :: rest)) with (3 + List.length rest)%nat in Hlen.
    rewrite Nat.add_comm in Hlen.
    now rewrite <- (Nat.Div0.mod_add (List.length rest) 1 3), Nat.mul_1_l.
Qed.

Lemma toBase64_app_witness :
  (List.length (list_byte_of_string "Man") mod 3 = 0)%nat
  /\ toBase64 (list_byte_of_string "Man" ++ list_byte_of_string "hi")
     = toBase64 (list_byte_of_string "Man") ++ toBase64 (list_byte_of_string "hi").
Proof.
  split; [reflexivity|].
  apply (toBase64_app (list_byte_of_string "Man") (list_byte_of_string "hi")).
  reflexivity.
Defined.

End CodecMore.

(** ** The requests and the model gateway *)

Section GatewayMore.
Import JS Runtime Service Examples Scenarios.

(** X5.  The body of both outbound requests is the transport encoding
    of the serialised value: decoding it gives back the UTF-8 bytes of
    [JSON.stringify] of the payload (model request) or of the data
    (callback request), whatever headers the caller adds. *)
Theorem request_body_decodes (service : LLMService) (payload : JSValue)
    (serverUrl : string) (data : JSValue)
    (headers : option (list (string * string))) :
  option_map string_of_list_byte
    (Base64.rfc4648_decode (req_body (llm_request service payload)))
  = Some (JSON.stringify payload)
  /\ option_map string_of_list_byte
       (Base64.rfc4648_decode (req_body (callback_request serverUrl data headers)))
     = Some (JSON.stringify data).
Proof.
  cbn [llm_request callback_request req_body]. unfold encode_body.
  rewrite !toBase64_groups, !decode_encode. cbn [option_map].
  now rewrite !string_of_list_byte_of_string.
Qed.

(** An executor that hands in an error envelope with a message makes
    the whole call fail. *)
Lemma envelope_yields_null {C : Type} (service : LLMService)
    (runtime : Runtime C) (payload : JSValue)
    (sendRequester : HTTPSendRequester) (message : string) :
  In sendRequester (executors runtime) ->
  sendRequest_fetchAndParse service payload sendRequester = error_envelope message ->
  is_empty message = false ->
  sendRequest service runtime payload = JNull.
Proof.
  intros Hin Henv Hmessage.
  destruct (HTTPClient_sendRequest runtime (sendRequest_fetchAndParse service payload))
    as [e|result] eqn:E.
  - unfold sendRequest. now rewrite E.
  - rewrite (sendRequest_agreed _ _ _ _ E).
    destruct (HTTPClient_sendRequest_inr _ _ _ E) as [_ Hall].
    rewrite <- (Hall _ Hin), Henv, has_error_envelope; [reflexivity | exact Hmessage].
Qed.



Lemma parse_error_has_text (text : string) (e : JSError) :
  JSON.parse text = inl e -> is_empty (error_text e) = false.
Proof.
  unfold JSON.parse.
  destruct (JSON.parse_value _ text) as [[v rest]|].
  - destruct (is_empty (JSON.skip_ws rest)); [discriminate|].
    now intros [= <-].
  - now intros [= <-].
Qed.

(** X7.  A response with status 200 whose body does not read as JSON,
    or reads as [null], counts as a failure: [sendRequest] returns
    [null]. *)
Theorem unreadable_body_yields_null {C : Type} (service : LLMService)
    (runtime : Runtime C) (payload : JSValue)
    (sendRequester : HTTPSendRequester) (resp : HTTPResponse) :
  In sendRequester (executors runtime) ->
  sendRequester (llm_request service payload) = inr resp ->
  statusCode resp = 200%N ->
  (exists e, JSON.parse (resp_body resp) = inl e)
  \/ JSON.parse (resp_body resp) = inr JNull ->
  sendRequest service runtime payload = JNull.
Proof.
  intros Hin Hresp Hcode Hbody.
  assert (Henv : exists message,
             sendRequest_fetchAndParse service payload sendRequester
             = error_envelope message /\ is_empty message = false).
  { unfold sendRequest_fetchAndParse. rewrite Hresp. cbn [bind].
    rewrite Hcode. cbn [N.eqb Pos.eqb negb].
    destruct Hbody as [[e He] | Hnull].
    - rewrite He. cbn [bind]. eexists. split; [reflexivity|].
      exact (parse_error_has_text _ _ He).
    - rewrite Hnull. cbn [bind get throw]. eexists. split; reflexivity. }
  destruct Henv as (message & Henv & Hmessage).
  exact (envelope_yields_null _ _ _ _ _ Hin Henv Hmessage).
Qed.

Lemma unreadable_body_yields_null_witness :
  sendRequest example_service
    (example_runtime "" [respond 200 "<html>Bad gateway</html>"]) good_payload = JNull
  /\ sendRequest example_service
       (example_runtime "" [respond 200 "null"]) good_payload = JNull.
Proof.
  split.
  - apply (unreadable_body_yields_null example_service
             (example_runtime "" [respond 200 "<html>Bad gateway</html>"])
             good_payload (respond 200 "<html>Bad gateway</html>")
             (mkResponse 200 "<html>Bad gateway</html>")).
    + left. reflexivity.
    + reflexivity.
    + reflexivity.
    + left. eexists. vm_compute. reflexivity.
  - apply (unreadable_body_yields_null example_service
             (example_runtime "" [respond 200 "null"])
             good_payload (respond 200 "null") (mkResponse 200 "null")).
    + left. reflexivity.
    + reflexivity.
    + reflexivity.
    + right. vm_compute. reflexivity.
Defined.




(** X9.  What [sendRequest] returns is [null] or the very value every
    executor extracted: nothing is made up from the executors' results,
    and the value is never falsy, so [if (!response)] in a caller fires
    on [null] only. *)
Theorem sendRequest_provenance {C : Type} (service : LLMService)
    (runtime : Runtime C) (payload : JSValue) :
  sendRequest service runtime payload = JNull
  \/ (truthy (sendRequest service runtime payload) = true
      /\ executors runtime <> []
      /\ forall x, In x (executors runtime) ->
           sendRequest_fetchAndParse service payload x
           = sendRequest service runtime payload).
Proof.
  destruct (HTTPClient_sendRequest runtime (sendRequest_fetchAndParse service payload))
    as [e|result] eqn:E.
  - left. unfold sendRequest. now rewrite E.
  - rewrite (sendRequest_agreed _ _ _ _ E).
    destruct (HTTPClient_sendRequest_inr _ _ _ E) as [Hne Hall].
    assert (Ht : truthy result = true).
    { destruct (executors runtime) as [|x xs]; [congruence|].
      rewrite <- (Hall x (or_introl eq_refl)).
      apply sendRequest_fetchAndParse_truthy. }
    destruct (has_error result) as [e|[|]]; auto.
Qed.

End GatewayMore.

(** ** Reading the completion *)

Section InterpretMore.
Import JS Runtime Service Main Examples Scenarios.

Lemma log_decision_well_shaped (d : JSValue) :
  is_TradeDecision d = true -> log_decision d = inr tt.
Proof.
  destruct d as [| | | | |props]; try discriminate. cbn [is_TradeDecision].
  rewrite !andb_true_iff. intros [[[[[[Ha Hb] Hc] _] _] _] _].
  unfold log_decision. cbn [get bind ret].
  destruct (obj_get "asset" props) as [[| | |a| |]|]; try discriminate.
  destruct (obj_get "action" props) as [[| | |b| |]|]; try discriminate.
  destruct (obj_get "allocation_usd" props) as [[| |n| | |]|]; try discriminate.
  reflexivity.
Qed.

Lemma for_each_well_shaped (decisions : list JSValue) :
  forallb is_TradeDecision decisions = true ->
  for_each decisions log_decision = inr tt.
Proof.
  induction decisions as [|d rest IH]; cbn; [reflexivity|].
  rewrite andb_true_iff. intros [Hd Hrest].
  now rewrite (log_decision_well_shaped d Hd), (IH Hrest).
Qed.

Lemma interpret_well_shaped (response parsed : JSValue) :
  JSON.parse_value_of response = inr parsed ->
  is_TradingDecisionResponse parsed = true ->
  interpretResponse response = parsed.
Proof.
  intros Hparse Hshape. unfold interpretResponse. rewrite Hparse. cbn [bind].
  destruct parsed as [| | | | |props]; try discriminate.
  cbn [is_TradingDecisionResponse] in Hshape. apply andb_true_iff in Hshape.
  destruct Hshape as [_ Hdecisions]. cbn [get bind ret].
  destruct (obj_get "trade_decisions" props) as [[| | | |decisions|]|];
    try discriminate.
  cbn [truthy get bind ret]. cbn [String.eqb Ascii.eqb Bool.eqb].
  unfold log at 1. cbn [template bind ret ToString_opt ToString].
  cbn [for_of]. now rewrite (for_each_well_shaped decisions Hdecisions).
Qed.

(** X10.  A completion that reads as a well-shaped
    [TradingDecisionResponse] is returned as read: logging its
    decisions never throws, so it is never replaced by the wrapper. *)
Theorem well_shaped_response_kept (response parsed : JSValue) :
  JSON.parse_value_of response = inr parsed ->
  is_TradingDecisionResponse parsed = true ->
  interpretResponse response = parsed.
Proof.
  intros Hparse Hshape. exact (interpret_well_shaped response parsed Hparse Hshape).
Qed.

Lemma well_shaped_response_kept_witness :
  is_TradingDecisionResponse example_decisions = true
  /\ interpretResponse (JStr (JSON.stringify example_decisions)) = example_decisions.
Proof.
  split; [reflexivity|].
  apply (well_shaped_response_kept (JStr (JSON.stringify example_decisions))
           example_decisions).
  - vm_compute. reflexivity.
  - reflexivity.
Defined.



Lemma for_each_null (decisions : list JSValue) :
  In JNull decisions -> exists e, for_each decisions log_decision = inl e.
Proof.
  induction decisions as [|d rest IH]; cbn; [contradiction|].
  intros [-> | Hin].
  - eexists. reflexivity.
  - destruct (log_decision d) as [e|[]]; cbn [bind].
    + now exists e.
    + exact (IH Hin).
Qed.

(** X12.  A completion that is valid JSON is wrapped as raw text when
    its [trade_decisions] array has a [null] element: reading
    [decision.asset] throws inside the [try]. *)
Theorem null_decision_wrapped (response parsed : JSValue)
    (decisions : list JSValue) :
  JSON.parse_value_of response = inr parsed ->
  get parsed "trade_decisions" = inr (Some (JArr decisions)) ->
  In JNull decisions ->
  interpretResponse response = JObj [("raw_response", response)].
Proof.
  intros Hparse Hget Hin. unfold interpretResponse.
  rewrite Hparse. cbn [bind]. rewrite Hget. cbn [bind truthy].
  destruct (get (JArr decisions) "length") as [e|count]; cbn [bind]; [reflexivity|].
  destruct (log _) as [e|[]]; cbn [bind]; [reflexivity|].
  cbn [for_of]. destruct (for_each_null decisions Hin) as [e ->]. reflexivity.
Qed.

Lemma null_decision_wrapped_witness :
  let parsed := JObj [("reasoning", JStr "r"); ("trade_decisions", JArr [JNull])] in
  interpretResponse (JStr (JSON.stringify parsed))
  = JObj [("raw_response", JStr (JSON.stringify parsed))].
Proof.
  cbv zeta.
  apply (null_decision_wrapped
           (JStr (JSON.stringify
                    (JObj [("reasoning", JStr "r"); ("trade_decisions", JArr [JNull])])))
           (JObj [("reasoning", JStr "r"); ("trade_decisions", JArr [JNull])])
           [JNull]).
  - vm_compute. reflexivity.
  - reflexivity.
  - left. reflexivity.
Defined.

(** X13.  A completion that reads as a JSON value other than [null]
    with no [trade_decisions], or a falsy one, is returned as read,
    whatever else it holds. *)
Theorem no_decisions_kept (response parsed : JSValue)
    (decisions : option JSValue) :
  JSON.parse_value_of response = inr parsed ->
  get parsed "trade_decisions" = inr decisions ->
  truthy_opt decisions = false ->
  interpretResponse response = parsed.
Proof.
  intros Hparse Hget Hfalsy. unfold interpretResponse.
  rewrite Hparse. cbn [bind]. rewrite Hget. cbn [bind].
  destruct decisions as [d|]; [|reflexivity].
  cbn [truthy_opt] in Hfalsy. now rewrite Hfalsy.
Qed.

Lemma no_decisions_kept_witness :
  interpretResponse (JStr "[1,2]")
  = JArr [JNum (number_of_nat 1); JNum (number_of_nat 2)].
Proof.
  apply (no_decisions_kept (JStr "[1,2]")
           (JArr [JNum (number_of_nat 1); JNum (number_of_nat 2)]) None).
  - vm_compute. reflexivity.
  - reflexivity.
  - reflexivity.
Defined.

(** X14.  On a completion that reads as a well-shaped
    [TradingDecisionResponse], [getTradingDecisions] and the handler's
    reading agree: both give the value read. *)
Theorem decisions_agree {C : Type} (service : LLMService) (runtime : Runtime C)
    (payload decisions : JSValue) :
  let response := sendRequest service runtime payload in
  JSON.parse_value_of response = inr decisions ->
  is_TradingDecisionResponse decisions = true ->
  getTradingDecisions service runtime payload = decisions
  /\ interpretResponse response = decisions.
Proof.
  cbv zeta. intros Hparse Hshape. split.
  - unfold getTradingDecisions.
    destruct (sendRequest_null_or_truthy service runtime payload) as [Hnull | Ht].
    + rewrite Hnull in Hparse. cbn in Hparse. injection Hparse as <-. discriminate.
    + rewrite Ht. cbn [negb]. now rewrite Hparse.
  - exact (interpret_well_shaped _ _ Hparse Hshape).
Qed.

Lemma decisions_agree_witness :
  let runtime :=
    example_runtime ""
      [respond 200 (completion_body (JSON.stringify example_decisions))] in
  getTradingDecisions example_service runtime good_payload = example_decisions
  /\ interpretResponse (sendRequest example_service runtime good_payload)
     = example_decisions.
Proof.
  cbv zeta.
  apply (decisions_agree example_service
           (example_runtime ""
              [respond 200 (completion_body (JSON.stringify example_decisions))])
           good_payload example_decisions).
  - vm_compute. reflexivity.
  - reflexivity.
Defined.

End InterpretMore.

(** ** The handler from end to end *)

Section HandlerMore.
Import JS Runtime Service Main Examples Scenarios.


(** X15.  In every run the handler calls [sendRequest] at most once,
    with the decoded payload as it is, and [sendToServer] at most once,
    only after [sendRequest], only with the configured callback URL and
    only when that URL is not empty. *)
Theorem onHttpTrigger_calls (runtime : Runtime Config) (payload : HTTPPayload) :
  let calls := fst (onHttpTrigger runtime payload) in
  calls = []
  \/ exists requestPayload,
       decodeJson (input payload) = inr requestPayload
       /\ (calls = [Call_sendRequest requestPayload]
           \/ exists data,
                is_empty (callbackUrl (config runtime)) = false
                /\ calls = [Call_sendRequest requestPayload;
                            Call_sendToServer (callbackUrl (config runtime)) data]).
Proof.
  cbv zeta.
  destruct (decodeJson (input payload)) as [e|requestPayload] eqn:Hdecode.
  { rewrite (onHttpTrigger_raises_decode _ _ _ Hdecode). now left. }
  destruct (get requestPayload "model") as [e|model] eqn:Hmodel.
  { rewrite (onHttpTrigger_raises_get _ _ _ _ Hdecode Hmodel). now left. }
  destruct (ToString_opt model) as [e|line] eqn:Hline.
  { rewrite (onHttpTrigger_raises_log _ _ _ _ _ Hdecode Hmodel Hline). now left. }
  destruct (get_succeeds _ _ "messages" _ Hmodel) as [messages Hmessages].
  rewrite (onHttpTrigger_decoded _ _ _ _ _ _ Hdecode Hmodel Hline Hmessages).
  cbv zeta.
  destruct (negb (truthy_opt model) || negb (truthy_opt messages)); [now left|].
  right. exists requestPayload. split; [reflexivity|].
  destruct (negb (truthy (sendRequest _ runtime requestPayload))); [now left|].
  destruct (is_empty (callbackUrl (config runtime))) eqn:Hurl; cbn [negb fst].
  - now left.
  - right. eexists. split; reflexivity.
Qed.

(** X16.  An exception leaves the handler only before any call is made,
    and only for one of three reasons: the payload does not decode, the
    decoded payload is [null] (reading [model] throws), or [model]
    cannot be converted to text for the first log line. *)
Theorem onHttpTrigger_raises_early (runtime : Runtime Config)
    (payload : HTTPPayload) (calls : list Call) (e : JSError) :
  onHttpTrigger runtime payload = (calls, inl e) ->
  calls = []
  /\ (decodeJson (input payload) = inl e
      \/ (decodeJson (input payload) = inr JNull /\ get JNull "model" = inl e)
      \/ exists requestPayload model,
           decodeJson (input payload) = inr requestPayload
           /\ get requestPayload "model" = inr model
           /\ ToString_opt model = inl e).
Proof.
  intro Hrun.
  destruct (decodeJson (input payload)) as [e'|requestPayload] eqn:Hdecode.
  { rewrite (onHttpTrigger_raises_decode _ _ _ Hdecode) in Hrun.
    injection Hrun as <- <-. split; [reflexivity | now left]. }
  destruct (get requestPayload "model") as [e'|model] eqn:Hmodel.
  { rewrite (onHttpTrigger_raises_get _ _ _ _ Hdecode Hmodel) in Hrun.
    injection Hrun as <- <-. split; [reflexivity|]. right. left.
    destruct requestPayload; try discriminate Hmodel. now split. }
  destruct (ToString_opt model) as [e'|line] eqn:Hline.
  { rewrite (onHttpTrigger_raises_log _ _ _ _ _ Hdecode Hmodel Hline) in Hrun.
    injection Hrun as <- <-. split; [reflexivity|]. right. right.
    now exists requestPayload, model. }
  destruct (get_succeeds _ _ "messages" _ Hmodel) as [messages Hmessages].
  rewrite (onHttpTrigger_decoded _ _ _ _ _ _ Hdecode Hmodel Hline Hmessages) in Hrun.
  cbv zeta in Hrun.
  repeat match type of Hrun with
         | context [if ?b then _ else _] => destruct b
         end; discriminate.
Qed.

Lemma onHttpTrigger_raises_early_witness :
  let payload :=
    payload_of (JObj [("model", JObj [("toString", JStr "x")]);
                      ("messages", JArr [user_message])]) in
  exists requestPayload model,
    decodeJson (input payload) = inr requestPayload
    /\ get requestPayload "model" = inr model
    /\ ToString_opt model = inl (TypeError "toPrimitive").
Proof.
  cbv zeta.
  destruct (onHttpTrigger_raises_early
              (example_runtime "" [respond 200 (completion_body "hold")])
              (payload_of (JObj [("model", JObj [("toString", JStr "x")]);
                                 ("messages", JArr [user_message])]))
              [] (TypeError "toPrimitive"))
    as [_ [H | [[H _] | H]]].
  - vm_compute. reflexivity.
  - vm_compute in H. discriminate.
  - vm_compute in H. discriminate.
  - exact H.
Defined.







End HandlerMore.

(** ** What [JSON.stringify] writes can be read *)

Section Readable.
Import JS JSON Scenarios.

Lemma stringify_array (elems : list JSValue) :
  stringify (JArr elems) = "[" ++ items_text elems ++ "]".
Proof. reflexivity. Qed.

Lemma stringify_object (props : list (string * JSValue)) :
  stringify (JObj props) = "{" ++ members_text props ++ "}".
Proof. reflexivity. Qed.

Lemma well_formed_array (x : JSValue) (rest : list JSValue) :
  well_formed (JArr (x :: rest)) = well_formed x && well_formed (JArr rest).
Proof. reflexivity. Qed.

Lemma well_formed_object (k : string) (x : JSValue) (rest : list (string * JSValue)) :
  well_formed (JObj ((k, x) :: rest)) = well_formed x && well_formed (JObj rest).
Proof. reflexivity. Qed.

(** *** Digits *)

Lemma all_digits_app (s t : string) :
  all_digits (s ++ t) = all_digits s && all_digits t.
Proof.
  induction s as [|c s IH]; cbn; [reflexivity | now rewrite IH, andb_assoc].
Qed.

Lemma all_digits_zeros (n : nat) : all_digits (zeros n) = true.
Proof. induction n as [|n IH]; cbn; [reflexivity | exact IH]. Qed.

Lemma all_digits_substring (s : string) :
  all_digits s = true -> forall n m, all_digits (substring n m s) = true.
Proof.
  induction s as [|c s IH]; intros Hs n m.
  - destruct n, m; reflexivity.
  - cbn in Hs. apply andb_true_iff in Hs. destruct Hs as [Hc Hs].
    destruct n as [|n]; destruct m as [|m]; cbn; try reflexivity.
    + now rewrite Hc, (IH Hs 0%nat m).
    + apply (IH Hs).
    + apply (IH Hs).
Qed.

Lemma length_substring (s : string) :
  forall n m, (n + m <= String.length s)%nat ->
              String.length (substring n m s) = m.
Proof.
  induction s as [|c s IH]; intros n m H; cbn in H.
  - destruct n, m; try reflexivity; lia.
  - destruct n as [|n]; destruct m as [|m]; cbn; try reflexivity.
    + rewrite (IH 0%nat m); [reflexivity | lia].
    + apply IH. lia.
    + apply IH. lia.
Qed.

Lemma span_digits_app (a rest : string) :
  all_digits a = true -> no_digit_ahead rest = true ->
  span_digits (a ++ rest) = (a, rest).
Proof.
  intros Ha Hrest. induction a as [|c a IH]; cbn [append span_digits].
  - destruct rest as [|c r]; [reflexivity|]. cbn [no_digit_ahead] in Hrest.
    apply negb_true_iff in Hrest. cbn [span_digits]. now rewrite Hrest.
  - cbn [all_digits] in Ha. apply andb_true_iff in Ha. destruct Ha as [Hc Ha].
    now rewrite Hc, (IH Ha).
Qed.

Lemma digit_not_minus (c : ascii) : is_digit c = true -> Ascii.eqb c "-" = false.
Proof.
  intro H. destruct (Ascii.eqb_spec c "-") as [-> | _]; [discriminate | reflexivity].
Qed.

Lemma digit_not_dot (c : ascii) : is_digit c = true -> Ascii.eqb c "." = false.
Proof.
  intro H. destruct (Ascii.eqb_spec c ".") as [-> | _]; [discriminate | reflexivity].
Qed.

Lemma parse_fraction_ok (frac tail : string) :
  all_digits frac = true ->
  no_digit_ahead tail = true ->
  (is_empty frac = true -> ends_number tail = true \/ exists t, tail = String "e" t) ->
  parse_fraction ((if is_empty frac then "" else "." ++ frac) ++ tail)
  = Some (frac, tail).
Proof.
  intros Hfrac Htail Hnodot. destruct frac as [|c frac].
  - cbn [is_empty append]. unfold parse_fraction.
    destruct tail as [|c t]; [reflexivity|].
    destruct (Hnodot eq_refl) as [Hend | [t' Ht]].
    + cbn in Hend. rewrite !andb_true_iff in Hend.
      destruct Hend as [[[_ Hdot] _] _]. apply negb_true_iff in Hdot.
      now rewrite Hdot.
    + injection Ht as -> ->. reflexivity.
  - cbn [is_empty append]. unfold parse_fraction.
    change (Ascii.eqb "." ".") with true. cbv iota.
    change (String c (frac ++ tail)) with (String c frac ++ tail).
    rewrite (span_digits_app _ _ Hfrac Htail). reflexivity.
Qed.

Lemma parse_exponent_ok (exp : option (bool * string)) (rest : string) :
  match exp with
  | Some (_, digits) => all_digits digits = true /\ is_empty digits = false
  | None => True
  end ->
  ends_number rest = true ->
  exists e,
    parse_exponent
      (match exp with
       | Some (negative, digits) => "e" ++ (if negative then "-" else "+") ++ digits
       | None => ""
       end ++ rest) = Some (e, rest).
Proof.
  intros Hexp Hrest.
  assert (Hnd : no_digit_ahead rest = true).
  { destruct rest as [|c r]; [reflexivity|]. cbn in *.
    rewrite !andb_true_iff in Hrest. tauto. }
  destruct exp as [[negative digits]|].
  - destruct Hexp as [Hdigits Hne].
    destruct negative; cbn [append]; unfold parse_exponent;
      change (Ascii.eqb "e" "e" || Ascii.eqb "e" "E") with true; cbv iota;
      cbn [Ascii.eqb Bool.eqb]; cbv iota;
      rewrite (span_digits_app _ _ Hdigits Hnd), Hne; eexists; reflexivity.
  - cbn [append]. unfold parse_exponent.
    destruct rest as [|c r]; [eexists; reflexivity|].
    cbn in Hrest. rewrite !andb_true_iff in Hrest.
    destruct Hrest as [[[_ _] He] HE].
    apply negb_true_iff in He, HE. rewrite He, HE. eexists. reflexivity.
Qed.

(** A number literal is read whole. *)
Lemma parse_number_literal (neg : bool) (c : ascii) (ds frac : string)
    (exp : option (bool * string)) (rest : string) :
  is_digit c = true ->
  all_digits ds = true ->
  (Ascii.eqb c "0" = true -> ds = EmptyString) ->
  all_digits frac = true ->
  match exp with
  | Some (_, digits) => all_digits digits = true /\ is_empty digits = false
  | None => True
  end ->
  ends_number rest = true ->
  exists n, parse_number (literal neg (String c ds) frac exp ++ rest) = Some (n, rest).
Proof.
  intros Hc Hds Hzero Hfrac Hexp Hrest.
  destruct (parse_exponent_ok exp rest Hexp Hrest) as [e He].
  set (etext := match exp with
                | Some (negative, digits) =>
                    "e" ++ (if negative then "-" else "+") ++ digits
                | None => ""
                end) in *.
  assert (Hetail : no_digit_ahead (etext ++ rest) = true
                   /\ (ends_number (etext ++ rest) = true
                       \/ exists t, etext ++ rest = String "e" t)).
  { subst etext. destruct exp as [[negative digits]|].
    - split; [reflexivity|]. right. eexists. reflexivity.
    - cbn [append]. split; [|now left].
      destruct rest as [|c' r]; [reflexivity|]. cbn in *.
      rewrite !andb_true_iff in Hrest. tauto. }
  destruct Hetail as [Hnd Hnodot].
  pose proof (parse_fraction_ok frac (etext ++ rest) Hfrac Hnd (fun _ => Hnodot)) as Hf.
  assert (Hftail : no_digit_ahead
                     ((if is_empty frac then "" else "." ++ frac) ++ etext ++ rest)
                   = true).
  { destruct frac; [exact Hnd | reflexivity]. }
  unfold literal. rewrite !append_assoc.
  assert (Hbody :
            match
              (if Ascii.eqb c "0"
               then Some ("0", ds ++ (if is_empty frac then "" else "." ++ frac)
                                  ++ etext ++ rest)
               else if is_digit c
                    then let (ds0, r) :=
                           span_digits (ds ++ (if is_empty frac then "" else "." ++ frac)
                                           ++ etext ++ rest) in
                         Some (String c ds0, r)
                    else None)
            with
            | Some (int, s2) =>
                match parse_fraction s2 with
                | Some (frac0, s3) =>
                    match parse_exponent s3 with
                    | Some (e0, s4) => Some (make_number neg int frac0 e0, s4)
                    | None => None
                    end
                | None => None
                end
            | None => None
            end
            = Some (make_number neg (if Ascii.eqb c "0" then "0" else String c ds)
                      frac e, rest)).
  { destruct (Ascii.eqb c "0") eqn:Hc0.
    - rewrite (Hzero eq_refl). cbn [append] in Hf |- *. now rewrite Hf, He.
    - rewrite Hc, (span_digits_app _ _ Hds Hftail). now rewrite Hf, He. }
  destruct neg; eexists; cbn [append]; unfold parse_number.
  - exact Hbody.
  - rewrite (digit_not_minus c Hc). exact Hbody.
Qed.

Lemma all_digits_uint (d : Decimal.uint) :
  all_digits (NilEmpty.string_of_uint d) = true.
Proof. induction d; cbn; [reflexivity | assumption ..]. Qed.

Lemma decimal_of_N_digits (x : N) :
  all_digits (decimal_of_N x) = true /\ is_empty (decimal_of_N x) = false.
Proof.
  unfold decimal_of_N, NilZero.string_of_uint.
  pose proof (all_digits_uint (N.to_uint x)) as H.
  destruct (N.to_uint x); split; try reflexivity; exact H.
Qed.

Lemma is_empty_length (s : string) :
  (0 < String.length s)%nat -> is_empty s = false.
Proof. destruct s; cbn; [lia | reflexivity]. Qed.

(** What [Number::toString] writes for a canonical number is a number
    literal. *)
Lemma Number_toString_literal (n : JSNumber) :
  canonical n = true ->
  exists neg c ds frac exp,
    Number_toString n = literal neg (String c ds) frac exp
    /\ is_digit c = true
    /\ all_digits ds = true
    /\ (Ascii.eqb c "0" = true -> ds = EmptyString)
    /\ all_digits frac = true
    /\ match exp with
       | Some (_, digits) => all_digits digits = true /\ is_empty digits = false
       | None => True
       end.
Proof.
  destruct n as [neg digits point]. unfold canonical, Number_toString.
  cbn [num_neg num_digits num_point].
  destruct digits as [|d0 rest].
  { intros _. exists false, "0"%char, EmptyString, EmptyString, None.
    repeat split. }
  cbn [all_digits first_nonzero is_empty]. rewrite !andb_true_iff.
  intros [[[Hd0 Hrest] Hnz] _]. apply negb_true_iff in Hnz.
  assert (Hzero : Ascii.eqb d0 "0" = true -> forall s : string, s = EmptyString)
    by (rewrite Hnz; discriminate).
  unfold positive_toString.
  set (k := Z.of_nat (String.length (String d0 rest))).
  assert (Hk : k = Z.of_nat (S (String.length rest))) by reflexivity.
  destruct ((k <=? point)%Z && (point <=? 21)%Z) eqn:B1.
  { exists neg, d0, (rest ++ zeros (Z.to_nat (point - k))), EmptyString, None.
    repeat split; auto.
    - unfold literal. cbn [is_empty append]. now rewrite !append_empty_r.
    - now rewrite all_digits_app, Hrest, all_digits_zeros. }
  destruct ((0 <? point)%Z && (point <=? 21)%Z) eqn:B2.
  { apply andb_true_iff in B2. destruct B2 as [Hpos Hle].
    apply Z.ltb_lt in Hpos. rewrite Hle, andb_true_r in B1.
    apply Z.leb_gt in B1.
    destruct (Z.to_nat point) as [|m] eqn:Hm; [lia|].
    exists neg, d0, (substring 0 m rest),
           (substring (S m) (Z.to_nat (k - point)) (String d0 rest)), None.
    assert (Hfrac : is_empty (substring (S m) (Z.to_nat (k - point)) (String d0 rest))
                    = false).
    { apply is_empty_length. rewrite length_substring; [lia|].
      cbn [String.length]. lia. }
    repeat split; auto.
    - unfold literal. rewrite Hfrac. cbn [substring append].
      now rewrite !append_empty_r.
    - now apply all_digits_substring.
    - apply all_digits_substring. cbn [all_digits]. now rewrite Hd0, Hrest. }
  destruct ((-6 <? point)%Z && (point <=? 0)%Z) eqn:B3.
  { exists neg, "0"%char, EmptyString,
           (zeros (Z.to_nat (- point)) ++ String d0 rest), None.
    assert (Hfrac : is_empty (zeros (Z.to_nat (- point)) ++ String d0 rest) = false).
    { apply is_empty_length. rewrite length_append. cbn [String.length]. lia. }
    repeat split; auto.
    - unfold literal. rewrite Hfrac. cbn [append]. now rewrite !append_empty_r.
    - rewrite all_digits_app, all_digits_zeros. cbn [all_digits].
      now rewrite Hd0, Hrest. }
  destruct (decimal_of_N_digits (Z.abs_N (point - 1))) as [He1 He2].
  exists neg, d0, EmptyString, rest,
         (Some ((point - 1 <? 0)%Z, decimal_of_N (Z.abs_N (point - 1)))).
  repeat split; auto.
  unfold literal. destruct rest as [|d1 rest']; cbn [is_empty append];
    destruct (point - 1 <? 0)%Z; reflexivity.
Qed.

(** What [Number::toString] writes for a canonical number is read
    whole. *)
Lemma parse_number_toString (n : JSNumber) (rest : string) :
  canonical n = true -> ends_number rest = true ->
  exists n', parse_number (Number_toString n ++ rest) = Some (n', rest).
Proof.
  intros Hn Hrest.
  destruct (Number_toString_literal n Hn)
    as (neg & c & ds & frac & exp & -> & Hc & Hds & Hzero & Hfrac & Hexp).
  exact (parse_number_literal neg c ds frac exp rest Hc Hds Hzero Hfrac Hexp Hrest).
Qed.

(** *** What [JSON.parse] builds is well formed *)

Lemma all_digits_strip_leading (s : string) :
  all_digits s = true ->
  all_digits (strip_leading_zeros s) = true
  /\ first_nonzero (strip_leading_zeros s) = true.
Proof.
  induction s as [|c s IH]; intro Hs; [now split|].
  cbn [all_digits] in Hs. apply andb_true_iff in Hs. destruct Hs as [Hc Hs].
  cbn [strip_leading_zeros]. destruct (Ascii.eqb c "0") eqn:Hz.
  - exact (IH Hs).
  - split; [cbn [all_digits]; now rewrite Hc, Hs | cbn; now rewrite Hz].
Qed.

Lemma strip_trailing_canonical (s : string) :
  all_digits s = true ->
  all_digits (strip_trailing_zeros s) = true
  /\ last_nonzero (strip_trailing_zeros s) = true
  /\ (first_nonzero s = true -> first_nonzero (strip_trailing_zeros s) = true).
Proof.
  induction s as [|c s IH]; intro Hs; [now repeat split|].
  cbn [all_digits] in Hs. apply andb_true_iff in Hs. destruct Hs as [Hc Hs].
  destruct (IH Hs) as (Ha & Hl & _). cbn [strip_trailing_zeros].
  destruct (strip_trailing_zeros s) as [|c' s'].
  - destruct (Ascii.eqb c "0") eqn:Hz.
    + now repeat split.
    + cbn. rewrite Hc, Hz. now repeat split.
  - repeat split.
    + cbn [all_digits] in *. now rewrite Hc.
    + exact Hl.
    + intro H. exact H.
Qed.

Lemma make_number_canonical (neg : bool) (int frac : string) (e : Z) :
  all_digits int = true -> all_digits frac = true ->
  canonical (make_number neg int frac e) = true.
Proof.
  intros Hint Hfrac. unfold make_number.
  assert (Hall : all_digits (int ++ frac) = true)
    by now rewrite all_digits_app, Hint, Hfrac.
  destruct (all_digits_strip_leading _ Hall) as [Hs Hf].
  destruct (strip_trailing_canonical _ Hs) as (Ha & Hl & Hfirst).
  specialize (Hfirst Hf).
  destruct (strip_trailing_zeros (strip_leading_zeros (int ++ frac))) as [|c t].
  - reflexivity.
  - unfold canonical. cbn [num_digits]. now rewrite Ha, Hl, Hfirst.
Qed.

Lemma span_digits_digits (s ds rest : string) :
  span_digits s = (ds, rest) -> all_digits ds = true.
Proof.
  revert ds rest. induction s as [|c s IH]; intros ds rest; cbn [span_digits].
  - now intros [= <- _].
  - destruct (is_digit c) eqn:Hc.
    + destruct (span_digits s) as [ds' r'] eqn:E. intros [= <- _].
      cbn [all_digits]. now rewrite Hc, (IH ds' r' eq_refl).
    + now intros [= <- _].
Qed.

Lemma parse_number_canonical (s : string) (n : JSNumber) (rest : string) :
  parse_number s = Some (n, rest) -> canonical n = true.
Proof.
  unfold parse_number.
  destruct (match s with
            | String c r => if Ascii.eqb c "-" then (true, r) else (false, s)
            | EmptyString => (false, s)
            end) as [neg s1].
  destruct s1 as [|c r]; [discriminate|].
  destruct (Ascii.eqb c "0") eqn:Hz.
  - destruct (parse_fraction r) as [[frac s3]|] eqn:Ef; [|discriminate].
    destruct (parse_exponent s3) as [[e s4]|]; [|discriminate].
    intros [= <- _]. apply make_number_canonical; [reflexivity|].
    unfold parse_fraction in Ef. destruct r as [|c' r']; [now injection Ef as <- _|].
    destruct (Ascii.eqb c' "."); [|now injection Ef as <- _].
    destruct (span_digits r') as [ds r0] eqn:E.
    destruct (is_empty ds); [discriminate|]. injection Ef as <- _.
    exact (span_digits_digits _ _ _ E).
  - destruct (is_digit c) eqn:Hc; [|discriminate].
    destruct (span_digits r) as [ds r0] eqn:E0.
    destruct (parse_fraction r0) as [[frac s3]|] eqn:Ef; [|discriminate].
    destruct (parse_exponent s3) as [[e s4]|]; [|discriminate].
    intros [= <- _]. apply make_number_canonical.
    + cbn [all_digits]. now rewrite Hc, (span_digits_digits _ _ _ E0).
    + unfold parse_fraction in Ef.
      destruct r0 as [|c' r']; [now injection Ef as <- _|].
      destruct (Ascii.eqb c' "."); [|now injection Ef as <- _].
      destruct (span_digits r') as [ds' r1] eqn:E.
      destruct (is_empty ds'); [discriminate|]. injection Ef as <- _.
      exact (span_digits_digits _ _ _ E).
Qed.

Lemma well_formed_snoc (acc : list JSValue) (v : JSValue) :
  well_formed (JArr acc) = true -> well_formed v = true ->
  well_formed (JArr (acc ++ [v])) = true.
Proof.
  intros Hacc Hv. induction acc as [|x acc IH].
  - cbn. now rewrite Hv.
  - change ((x :: acc) ++ [v])%list with (x :: (acc ++ [v]))%list.
    rewrite well_formed_array in *. apply andb_true_iff in Hacc.
    destruct Hacc as [Hx Hacc]. now rewrite Hx, (IH Hacc).
Qed.

Lemma well_formed_obj_set (acc : list (string * JSValue)) (k : string)
    (v : JSValue) :
  well_formed (JObj acc) = true -> well_formed v = true ->
  well_formed (JObj (obj_set acc k v)) = true.
Proof.
  intros Hacc Hv. unfold obj_set.
  destruct (obj_has k acc).
  - induction acc as [|[k0 x] acc IH]; [reflexivity|].
    rewrite well_formed_object in Hacc. apply andb_true_iff in Hacc.
    destruct Hacc as [Hx Hacc]. cbn [obj_replace].
    destruct (String.eqb k0 k); rewrite well_formed_object.
    + now rewrite Hv, Hacc.
    + now rewrite Hx, (IH Hacc).
  - destruct (array_index k) as [i|].
    + induction acc as [|[k0 x] acc IH]; [cbn; now rewrite Hv|].
      pose proof Hacc as Hacc'.
      rewrite well_formed_object in Hacc. apply andb_true_iff in Hacc.
      destruct Hacc as [Hx Hacc]. cbn [obj_insert_index].
      destruct (array_index k0) as [j|]; [destruct (j <? i)%N|];
        rewrite well_formed_object.
      * now rewrite Hx, (IH Hacc).
      * now rewrite Hv, Hacc'.
      * now rewrite Hv, Hacc'.
    + induction acc as [|[k0 x] acc IH]; [cbn; now rewrite Hv|].
      change (((k0, x) :: acc) ++ [(k, v)])%list
        with ((k0, x) :: (acc ++ [(k, v)]))%list.
      rewrite well_formed_object in *. apply andb_true_iff in Hacc.
      destruct Hacc as [Hx Hacc]. now rewrite Hx, (IH Hacc).
Qed.

Ltac built_walk :=
  repeat match goal with
         | H : match ?x with _ => _ end = Some _ |- _ =>
             destruct x eqn:?; try discriminate H
         end.

(** Every value the reader builds is well formed. *)
Lemma reader_well_formed (fuel : nat) :
  (forall s v r, parse_value fuel s = Some (v, r) -> well_formed v = true)
  /\ (forall acc s v r,
        well_formed (JArr acc) = true ->
        parse_elements fuel acc s = Some (v, r) -> well_formed v = true)
  /\ (forall acc s v r,
        well_formed (JObj acc) = true ->
        parse_members fuel acc s = Some (v, r) -> well_formed v = true).
Proof.
  induction fuel as [|fuel (IHV & IHE & IHM)];
    [repeat split; intros; discriminate|].
  split; [|split].
  - intros s v r H. cbn [parse_value] in H. built_walk;
      try (injection H as <- _; reflexivity).
    + exact (IHM [] _ _ _ eq_refl H).
    + exact (IHE [] _ _ _ eq_refl H).
    + injection H as <- _. cbn [well_formed].
      eapply parse_number_canonical; eassumption.
  - intros acc s v r Hacc H. cbn [parse_elements] in H. built_walk.
    + eapply IHE; [|exact H]. apply well_formed_snoc; [exact Hacc|].
      eapply IHV; eassumption.
    + injection H as <- _. apply well_formed_snoc; [exact Hacc|].
      eapply IHV; eassumption.
  - intros acc s v r Hacc H. cbn [parse_members] in H. built_walk.
    + eapply IHM; [|exact H]. apply well_formed_obj_set; [exact Hacc|].
      eapply IHV; eassumption.
    + injection H as <- _. apply well_formed_obj_set; [exact Hacc|].
      eapply IHV; eassumption.
Qed.

Lemma parse_well_formed (text : string) (v : JSValue) :
  parse text = inr v -> well_formed v = true.
Proof.
  unfold parse.
  destruct (parse_value _ text) as [[v' rest]|] eqn:E; [|discriminate].
  destruct (is_empty (skip_ws rest)); [|discriminate].
  intros [= <-]. exact (proj1 (reader_well_formed _) _ _ _ E).
Qed.

(** *** Reading back what [JSON.stringify] wrote *)

Ltac flat_text := repeat (progress (rewrite ?append_assoc; cbn [append])).

Lemma value_lift (fuel : nat) (s : string) (v : JSValue) (r : string) :
  parse_value fuel s = Some (v, r) ->
  forall f, (String.length s <= f)%nat -> parse_value f s = Some (v, r).
Proof.
  intros H f Hf. apply (proj1 (reader_fuel_enough fuel) _ _ _ H). lia.
Qed.

Lemma elements_lift (fuel : nat) (acc : list JSValue) (s : string)
    (v : JSValue) (r : string) :
  parse_elements fuel acc s = Some (v, r) ->
  forall f, (String.length s <= f)%nat -> parse_elements f acc s = Some (v, r).
Proof.
  intros H f Hf.
  apply (proj1 (proj2 (reader_fuel_enough fuel)) _ _ _ _ H). lia.
Qed.

Lemma members_lift (fuel : nat) (acc : list (string * JSValue)) (s : string)
    (v : JSValue) (r : string) :
  parse_members fuel acc s = Some (v, r) ->
  forall f, (String.length s <= f)%nat -> parse_members f acc s = Some (v, r).
Proof.
  intros H f Hf.
  apply (proj2 (proj2 (reader_fuel_enough fuel)) _ _ _ _ H). lia.
Qed.

Lemma terminated_ends_number (rest : string) :
  terminated rest = true -> ends_number rest = true.
Proof.
  destruct rest as [|c t]; [reflexivity|]. cbn [terminated]. intro H.
  rewrite !orb_true_iff in H.
  destruct H as [[H | H] | H]; apply Ascii.eqb_eq in H; subst c; reflexivity.
Qed.

(** No value starts with a closing bracket. *)
Lemma value_head (fuel : nat) (s : string) (v : JSValue) (r : string) :
  parse_value fuel s = Some (v, r) ->
  exists c t, skip_ws s = String c t /\ Ascii.eqb c "]" = false.
Proof.
  destruct fuel; [discriminate|]. cbn [parse_value].
  destruct (skip_ws s) as [|c t]; [discriminate|]. intro H.
  exists c, t. split; [reflexivity|].
  destruct (Ascii.eqb_spec c "]") as [-> | _]; [|reflexivity].
  cbn in H. discriminate.
Qed.

Lemma parse_value_bracket (fuel : nat) (s : string) (c : ascii) (t : string) :
  skip_ws s = String c t -> Ascii.eqb c "]" = false ->
  parse_value (S fuel) (String "[" s) = parse_elements fuel [] s.
Proof.
  intros Hs Hc. cbn [parse_value skip_ws].
  change (is_ws "[") with false. cbv iota.
  change (Ascii.eqb "[" "{") with false.
  change (Ascii.eqb "[" "[") with true. cbv iota.
  now rewrite Hs, Hc.
Qed.

Lemma elements_step_more (fuel : nat) (acc : list JSValue) (s rest : string)
    (v : JSValue) :
  parse_value fuel s = Some (v, String "," rest) ->
  parse_elements (S fuel) acc s = parse_elements fuel (acc ++ [v]) rest.
Proof. intro H. cbn [parse_elements]. rewrite H. reflexivity. Qed.

Lemma elements_step_last (fuel : nat) (acc : list JSValue) (s rest : string)
    (v : JSValue) :
  parse_value fuel s = Some (v, String "]" rest) ->
  parse_elements (S fuel) acc s = Some (JArr (acc ++ [v]), rest).
Proof. intro H. cbn [parse_elements]. rewrite H. reflexivity. Qed.

(** What a number literal starts with is nothing else. *)
Lemma number_head (c : ascii) :
  (Ascii.eqb c "-" || is_digit c) = true ->
  is_ws c = false /\ Ascii.eqb c "{" = false /\ Ascii.eqb c "[" = false
  /\ Ascii.eqb c dquote = false /\ Ascii.eqb "t" c = false
  /\ Ascii.eqb "f" c = false /\ Ascii.eqb "n" c = false.
Proof.
  destruct c as [[] [] [] [] [] [] [] []]; cbv; intro H;
    try discriminate H; repeat split.
Qed.

Lemma parse_value_number (fuel : nat) (c : ascii) (t : string) :
  (Ascii.eqb c "-" || is_digit c) = true ->
  parse_value (S fuel) (String c t)
  = match parse_number (String c t) with
    | Some (n, r) => Some (JNum n, r)
    | None => None
    end.
Proof.
  intro H. destruct (number_head c H) as (Hws & Ho & Ha & Hq & Ht & Hf & Hn).
  cbn [parse_value skip_ws]. rewrite Hws. cbv iota.
  rewrite Ho, Ha, Hq. cbn [strip_prefix]. rewrite Ht, Hf, Hn. reflexivity.
Qed.

Lemma number_reads_back (n : JSNumber) : reads_back (JNum n).
Proof.
  intros Hn rest Hrest. cbn [well_formed] in Hn.
  destruct (parse_number_toString n rest Hn (terminated_ends_number _ Hrest))
    as [n' Hn'].
  assert (Hhead : exists h tl,
             Number_toString n ++ rest = String h tl
             /\ (Ascii.eqb h "-" || is_digit h) = true).
  { destruct (Number_toString_literal n Hn)
      as (neg & c & ds & frac & exp & -> & Hc & _).
    unfold literal. destruct neg; cbn [append].
    - eexists _, _. split; reflexivity.
    - eexists _, _. split; [reflexivity|]. rewrite Hc. apply orb_true_r. }
  destruct Hhead as (h & tl & Heq & Hh).
  exists (JNum n'), 1%nat. cbn [stringify]. rewrite Heq in *.
  rewrite (parse_value_number _ _ _ Hh). now rewrite Hn'.
Qed.

Lemma items_text_more (x y : JSValue) (more : list JSValue) :
  items_text (x :: y :: more) = stringify x ++ "," ++ items_text (y :: more).
Proof. reflexivity. Qed.

Lemma members_text_more (k : string) (x : JSValue) (kv : string * JSValue)
    (more : list (string * JSValue)) :
  members_text ((k, x) :: kv :: more)
  = quote k ++ ":" ++ stringify x ++ "," ++ members_text (kv :: more).
Proof. reflexivity. Qed.

Lemma elements_read_back (elems : list JSValue) :
  Forall reads_back elems ->
  well_formed (JArr elems) = true ->
  elems <> [] ->
  forall acc rest,
    exists v' fuel,
      parse_elements fuel acc (items_text elems ++ String "]" rest)
      = Some (v', rest).
Proof.
  induction 1 as [|x more Hx Hmore IH]; intros Hwf Hne acc rest;
    [now contradiction Hne|].
  rewrite well_formed_array in Hwf. apply andb_true_iff in Hwf.
  destruct Hwf as [Hwx Hwm]. destruct more as [|y more'].
  - destruct (Hx Hwx (String "]" rest) eq_refl) as (v' & fuel & Hv).
    exists (JArr (acc ++ [v'])), (S fuel).
    change (items_text [x]) with (stringify x ++ ""). rewrite append_empty_r.
    exact (elements_step_last _ _ _ _ _ Hv).
  - destruct (Hx Hwx (String "," (items_text (y :: more') ++ String "]" rest))
                eq_refl) as (v' & f1 & Hv).
    destruct (IH Hwm ltac:(discriminate) (acc ++ [v'])%list rest)
      as (v'' & f2 & He).
    rewrite items_text_more. flat_text.
    exists v''. eexists (S (Nat.max _ _)).
    rewrite (elements_step_more _ _ _ _ _
               (value_lift _ _ _ _ Hv _ (Nat.le_max_l _ _))).
    exact (elements_lift _ _ _ _ _ He _ (Nat.le_max_r _ _)).
Qed.

Lemma members_read_back (props : list (string * JSValue)) :
  Forall (fun kv => reads_back (snd kv)) props ->
  well_formed (JObj props) = true ->
  props <> [] ->
  forall acc rest,
    exists v' fuel,
      parse_members fuel acc (members_text props ++ String "}" rest)
      = Some (v', rest).
Proof.
  induction 1 as [|[k x] more Hx Hmore IH]; intros Hwf Hne acc rest;
    [now contradiction Hne|].
  rewrite well_formed_object in Hwf. apply andb_true_iff in Hwf.
  destruct Hwf as [Hwx Hwm]. cbn [snd] in Hx. destruct more as [|kv more'].
  - destruct (Hx Hwx (String "}" rest) eq_refl) as (v' & fuel & Hv).
    exists (JObj (obj_set acc k v')), (S fuel).
    change (members_text [(k, x)]) with (quote k ++ ":" ++ stringify x ++ "").
    rewrite append_empty_r. flat_text.
    exact (parse_members_last _ _ _ _ _ _ Hv).
  - destruct (Hx Hwx (String "," (members_text (kv :: more') ++ String "}" rest))
                eq_refl) as (v' & f1 & Hv).
    destruct (IH Hwm ltac:(discriminate) (obj_set acc k v') rest)
      as (v'' & f2 & He).
    rewrite members_text_more. flat_text.
    exists v''. eexists (S (Nat.max _ _)).
    rewrite (parse_members_more _ _ _ _ _ _
               (value_lift _ _ _ _ Hv _ (Nat.le_max_l _ _))).
    exact (members_lift _ _ _ _ _ He _ (Nat.le_max_r _ _)).
Qed.

(** Whatever [JSON.stringify] writes for a well-formed value is read
    whole. *)
Lemma stringify_reads_back (v : JSValue) : reads_back v.
Proof.
  induction v as [| b | n | s | elems IH | props IH] using JSValue_induction.
  - intros _ rest _. exists JNull, 1%nat. reflexivity.
  - intros _ rest _. exists (JBool b), 1%nat. destruct b; reflexivity.
  - apply number_reads_back.
  - intros _ rest _. exists (JStr s), 1%nat. cbn [stringify].
    apply parse_value_quote.
  - intros Hwf rest _. destruct elems as [|x more].
    + exists (JArr []), 1%nat. reflexivity.
    + destruct (elements_read_back _ IH Hwf ltac:(discriminate) [] rest)
        as (v' & fuel & He).
      exists v', (S fuel). rewrite stringify_array. flat_text.
      destruct fuel as [|fuel']; [discriminate|].
      assert (Hhead : exists c t,
                 skip_ws (items_text (x :: more) ++ String "]" rest) = String c t
                 /\ Ascii.eqb c "]" = false).
      { cbn [parse_elements] in He.
        destruct (parse_value fuel' _) as [[v0 r0]|] eqn:Ev; [|discriminate].
        exact (value_head _ _ _ _ Ev). }
      destruct Hhead as (c & t & Hs & Hc).
      rewrite (parse_value_bracket _ _ _ _ Hs Hc). exact He.
  - intros Hwf rest _. destruct props as [|[k x] more].
    + exists (JObj []), 1%nat. reflexivity.
    + destruct (members_read_back _ IH Hwf ltac:(discriminate) [] rest)
        as (v' & fuel & He).
      exists v', (S fuel). rewrite stringify_object.
      destruct more as [|kv more'].
      * change (members_text [(k, x)]) with (quote k ++ ":" ++ stringify x ++ "")
          in *.
        flat_text. rewrite parse_value_object.
        revert He. flat_text. exact (fun He => He).
      * rewrite members_text_more in *.
        flat_text. rewrite parse_value_object.
        revert He. flat_text. exact (fun He => He).
Qed.

(** A text written by [JSON.stringify] from a value that [JSON.parse]
    built is JSON. *)
Lemma parse_stringify_readable (v : JSValue) :
  well_formed v = true -> exists v', parse (stringify v) = inr v'.
Proof.
  intro Hwf.
  destruct (stringify_reads_back v Hwf EmptyString eq_refl) as (v' & fuel & Hv).
  rewrite append_empty_r in Hv. exists v'. unfold parse.
  rewrite (value_lift _ _ _ _ Hv) by lia. reflexivity.
Qed.

End Readable.

(** ** Values and texts along a run *)

Section ReadableRuns.
Import JS JSON Runtime Service Main Examples Scenarios.

Lemma number_of_nat_canonical (n : nat) : canonical (number_of_nat n) = true.
Proof.
  unfold number_of_nat, number_of_N.
  apply make_number_canonical; [|reflexivity].
  exact (proj1 (decimal_of_N_digits _)).
Qed.

Lemma obj_get_well_formed (props : list (string * JSValue)) (k : string)
    (x : JSValue) :
  well_formed (JObj props) = true -> obj_get k props = Some x ->
  well_formed x = true.
Proof.
  induction props as [|[k0 x0] props IH]; [discriminate|].
  rewrite well_formed_object. intro H. apply andb_true_iff in H.
  destruct H as [Hx Hrest]. cbn [obj_get].
  destruct (String.eqb k0 k); [now intros [= <-] | exact (IH Hrest)].
Qed.

Lemma nth_error_well_formed (elems : list JSValue) (i : nat) (x : JSValue) :
  well_formed (JArr elems) = true -> nth_error elems i = Some x ->
  well_formed x = true.
Proof.
  revert i. induction elems as [|x0 elems IH]; intros [|i]; try discriminate;
    rewrite well_formed_array; intro H; apply andb_true_iff in H;
    destruct H as [Hx Hrest]; cbn [nth_error].
  - now intros [= <-].
  - exact (IH i Hrest).
Qed.

(** Reading a property of a well-formed value gives a well-formed
    value. *)
Lemma get_well_formed (v : JSValue) (k : string) (x : JSValue) :
  well_formed v = true -> get v k = inr (Some x) -> well_formed x = true.
Proof.
  intro Hv. destruct v as [| b | n | s | elems | props]; cbn [get ret throw];
    try discriminate.
  - destruct (String.eqb k "length").
    + intros [= <-]. apply number_of_nat_canonical.
    + destruct (array_index k); [|discriminate].
      destruct (nth_error _ _); [|discriminate]. now intros [= <-].
  - destruct (String.eqb k "length").
    + intros [= <-]. apply number_of_nat_canonical.
    + destruct (array_index k) as [i|]; [|discriminate].
      intros [= H]. exact (nth_error_well_formed _ _ _ Hv H).
  - intros [= H]. exact (obj_get_well_formed _ _ _ Hv H).
Qed.

Lemma get_opt_well_formed (o : option JSValue) (k : string) (x : JSValue) :
  (forall v, o = Some v -> well_formed v = true) ->
  get_opt o k = inr (Some x) -> well_formed x = true.
Proof.
  destruct o as [v|]; [|discriminate]. intros Hv H.
  exact (get_well_formed _ _ _ (Hv v eq_refl) H).
Qed.

(** What an executor hands in is well formed. *)
Lemma fetchAndParse_well_formed (service : LLMService) (payload : JSValue)
    (sendRequester : HTTPSendRequester) :
  well_formed (sendRequest_fetchAndParse service payload sendRequester) = true.
Proof.
  unfold sendRequest_fetchAndParse, error_envelope.
  destruct (sendRequester _) as [e|resp]; cbn [bind]; [reflexivity|].
  destruct (negb _); [reflexivity|].
  destruct (parse (resp_body resp)) as [e|data] eqn:Hp; cbn [bind];
    [reflexivity|].
  pose proof (parse_well_formed _ _ Hp) as Hdata.
  destruct (get data "choices") as [e|[choices|]] eqn:Hc; cbn [bind truthy_opt];
    try reflexivity.
  pose proof (get_well_formed _ _ _ Hdata Hc) as Hchoices.
  destruct (truthy choices); [|reflexivity]. cbn [get_opt].
  destruct (get choices "0") as [e|[first|]] eqn:Hf; cbn [bind truthy_opt];
    try reflexivity.
  pose proof (get_well_formed _ _ _ Hchoices Hf) as Hfirst.
  destruct (truthy first); [|reflexivity]. cbn [get_opt].
  destruct (get first "message") as [e|[message|]] eqn:Hm; cbn [bind truthy_opt];
    try reflexivity.
  pose proof (get_well_formed _ _ _ Hfirst Hm) as Hmessage.
  destruct (truthy message); [|reflexivity]. cbn [get_opt].
  destruct (get message "content") as [e|[c|]] eqn:Hk; cbn [bind];
    try reflexivity.
  destruct (truthy c); [|reflexivity].
  exact (get_well_formed _ _ _ Hmessage Hk).
Qed.

Lemma sendRequest_well_formed {C : Type} (service : LLMService)
    (runtime : Runtime C) (payload : JSValue) :
  well_formed (sendRequest service runtime payload) = true.
Proof.
  destruct (HTTPClient_sendRequest runtime (sendRequest_fetchAndParse service payload))
    as [e|result] eqn:E.
  - unfold sendRequest. now rewrite E.
  - rewrite (sendRequest_agreed _ _ _ _ E).
    destruct (HTTPClient_sendRequest_inr _ _ _ E) as [Hne Hall].
    assert (Hr : well_formed result = true).
    { destruct (executors runtime) as [|x xs]; [congruence|].
      rewrite <- (Hall x (or_introl eq_refl)).
      apply fetchAndParse_well_formed. }
    destruct (has_error result) as [e|[|]]; auto.
Qed.

Lemma parse_value_of_well_formed (v parsed : JSValue) :
  parse_value_of v = inr parsed -> well_formed parsed = true.
Proof.
  unfold parse_value_of. destruct (ToString v) as [e|text]; [discriminate|].
  cbn [bind]. apply parse_well_formed.
Qed.

Lemma interpretResponse_well_formed (response : JSValue) :
  well_formed response = true ->
  well_formed (interpretResponse response) = true.
Proof.
  intro Hr. destruct (interpretResponse_cases response)
    as [(parsed & Hp & ->) | ->].
  - exact (parse_value_of_well_formed _ _ Hp).
  - cbn. now rewrite Hr.
Qed.

Lemma sendToServer_well_formed {C : Type} (runtime : Runtime C)
    (serverUrl : string) (data : JSValue)
    (headers : option (list (string * string))) :
  well_formed (sendToServer runtime serverUrl data headers) = true.
Proof.
  destruct (sendToServer_shapes runtime serverUrl data headers)
    as [(body & -> & _) | (message & ->)]; reflexivity.
Qed.

(** The envelope of line 130 reads as an error. *)
Lemma has_error_no_content (data : JSValue) :
  well_formed data = true -> has_error (no_content_envelope data) = inr true.
Proof.
  intro Hwf.
  destruct (stringify_reads_back data Hwf (String "}" EmptyString) eq_refl)
    as (v' & fuel & Hv).
  assert (Hp : parse (stringify (JObj [("error", JStr "No content in response");
                                       ("raw", data)]))
               = inr (JObj [("error", JStr "No content in response");
                            ("raw", v')])).
  { unfold parse.
    rewrite (value_lift (S (S (S fuel))) _
               (JObj [("error", JStr "No content in response"); ("raw", v')])
               EmptyString); [reflexivity | | lia].
    rewrite stringify_object.
    change (members_text [("error", JStr "No content in response"); ("raw", data)])
      with (quote "error" ++ ":" ++ quote "No content in response" ++ ","
            ++ quote "raw" ++ ":" ++ stringify data ++ "").
    rewrite append_empty_r.
    repeat (progress (rewrite ?append_assoc; cbn [append])).
    rewrite parse_value_object.
    rewrite (parse_members_more _ _ _ _ _ (JStr "No content in response"))
      by apply parse_value_quote.
    rewrite (parse_members_last _ _ _ _ _ _ Hv). reflexivity. }
  unfold has_error, no_content_envelope, parse_value_of.
  cbn [ToString bind ret]. rewrite Hp. reflexivity.
Qed.

(** An executor that hands in a result reading as an error makes the
    whole call fail. *)
Lemma failing_result_yields_null {C : Type} (service : LLMService)
    (runtime : Runtime C) (payload : JSValue)
    (sendRequester : HTTPSendRequester) :
  In sendRequester (executors runtime) ->
  has_error (sendRequest_fetchAndParse service payload sendRequester) = inr true ->
  sendRequest service runtime payload = JNull.
Proof.
  intros Hin Herr.
  destruct (HTTPClient_sendRequest runtime (sendRequest_fetchAndParse service payload))
    as [e|result] eqn:E.
  - unfold sendRequest. now rewrite E.
  - rewrite (sendRequest_agreed _ _ _ _ E).
    destruct (HTTPClient_sendRequest_inr _ _ _ E) as [_ Hall].
    now rewrite <- (Hall _ Hin), Herr.
Qed.

(** X20.  A response with status 200 whose body reads as JSON, is not
    [null] and holds no truthy [choices[0].message.content] makes the
    executor report [{"error":"No content in response","raw": data}];
    whatever [data] is, that text reads as an error and [sendRequest]
    returns [null]. *)
Theorem missing_content_yields_null {C : Type} (service : LLMService)
    (runtime : Runtime C) (payload : JSValue)
    (sendRequester : HTTPSendRequester) (resp : HTTPResponse) (data : JSValue) :
  In sendRequester (executors runtime) ->
  sendRequester (llm_request service payload) = inr resp ->
  statusCode resp = 200%N ->
  parse (resp_body resp) = inr data ->
  data <> JNull ->
  (forall c, ~ has_content (resp_body resp) c) ->
  sendRequest_fetchAndParse service payload sendRequester = no_content_envelope data
  /\ sendRequest service runtime payload = JNull.
Proof.
  intros Hin Hresp Hcode Hp Hdata Hnone.
  assert (Henv : sendRequest_fetchAndParse service payload sendRequester
                 = no_content_envelope data).
  { unfold sendRequest_fetchAndParse, no_content_envelope.
    rewrite Hresp. cbn [bind]. rewrite Hcode. cbn [N.eqb Pos.eqb negb].
    rewrite Hp. cbn [bind].
    destruct (get data "choices") as [e|[choices|]] eqn:Hc;
      cbn [bind truthy_opt]; try reflexivity.
    { destruct data; try discriminate Hc. now contradiction Hdata. }
    destruct (truthy choices) eqn:Tc; [|reflexivity]. cbn [get_opt].
    destruct (get choices "0") as [e|[first|]] eqn:Hf;
      cbn [bind truthy_opt]; try reflexivity.
    { destruct choices; discriminate. }
    destruct (truthy first) eqn:Tf; [|reflexivity]. cbn [get_opt].
    destruct (get first "message") as [e|[message|]] eqn:Hm;
      cbn [bind truthy_opt]; try reflexivity.
    { destruct first; discriminate. }
    destruct (truthy message) eqn:Tm; [|reflexivity]. cbn [get_opt].
    destruct (get message "content") as [e|[c|]] eqn:Hk;
      cbn [bind]; try reflexivity.
    { destruct message; discriminate. }
    destruct (truthy c) eqn:Tk; [|reflexivity].
    exfalso. apply (Hnone c).
    exists data, choices, first, message. repeat split; assumption. }
  split; [exact Henv|].
  apply (failing_result_yields_null _ _ _ _ Hin). rewrite Henv.
  exact (has_error_no_content _ (parse_well_formed _ _ Hp)).
Qed.

Lemma missing_content_yields_null_witness :
  sendRequest_fetchAndParse example_service good_payload
    (respond 200 (stringify (JObj [("choices", JArr [])])))
  = no_content_envelope (JObj [("choices", JArr [])])
  /\ sendRequest example_service
       (example_runtime "" [respond 200 (stringify (JObj [("choices", JArr [])]))])
       good_payload = JNull.
Proof.
  apply (missing_content_yields_null example_service
           (example_runtime "" [respond 200 (stringify (JObj [("choices", JArr [])]))])
           good_payload
           (respond 200 (stringify (JObj [("choices", JArr [])])))
           (mkResponse 200 (stringify (JObj [("choices", JArr [])])))
           (JObj [("choices", JArr [])])).
  - left. reflexivity.
  - reflexivity.
  - reflexivity.
  - vm_compute. reflexivity.
  - discriminate.
  - intros c (data & choices & first & message & Hp & Hc & _ & Hf & _).
    vm_compute in Hp. injection Hp as <-.
    vm_compute in Hc. injection Hc as <-. discriminate Hf.
Defined.

Lemma body_text_encode (value : JSValue) (req : HTTPRequest) :
  req_body req = encode_body value -> body_text req = Some (stringify value).
Proof.
  intro H. unfold body_text. rewrite H. unfold encode_body.
  rewrite toBase64_groups, decode_encode. cbn [option_map].
  now rewrite string_of_list_byte_of_string.
Qed.

Lemma is_JSON_stringify (v : JSValue) :
  well_formed v = true -> is_JSON (stringify v).
Proof. exact (parse_stringify_readable v). Qed.

(** X21.  Every request the handler has the executors send, to the
    model provider or to the callback server, carries a body that
    decodes to a JSON text: the payload is forwarded as it was read, and
    what is posted to the callback is built from values read from
    JSON. *)
Theorem outbound_bodies_are_JSON (runtime : Runtime Config)
    (payload : HTTPPayload) (call : Call) :
  In call (fst (onHttpTrigger runtime payload)) ->
  exists text,
    body_text (request_of
                 (new_LLMService (Some (openRouterApiKey (config runtime)))) call)
    = Some text
    /\ is_JSON text.
Proof.
  destruct (decodeJson (input payload)) as [e|requestPayload] eqn:Hdecode.
  { rewrite (onHttpTrigger_raises_decode _ _ _ Hdecode). intros []. }
  destruct (get requestPayload "model") as [e|model] eqn:Hmodel.
  { rewrite (onHttpTrigger_raises_get _ _ _ _ Hdecode Hmodel). intros []. }
  destruct (ToString_opt model) as [e|line] eqn:Hline.
  { rewrite (onHttpTrigger_raises_log _ _ _ _ _ Hdecode Hmodel Hline). intros []. }
  destruct (get_succeeds _ _ "messages" _ Hmodel) as [messages Hmessages].
  rewrite (onHttpTrigger_decoded _ _ _ _ _ _ Hdecode Hmodel Hline Hmessages).
  cbv zeta.
  assert (Hpayload : well_formed requestPayload = true)
    by exact (parse_well_formed _ _ Hdecode).
  assert (Hfirst : exists text,
             body_text (request_of
                          (new_LLMService (Some (openRouterApiKey (config runtime))))
                          (Call_sendRequest requestPayload)) = Some text
             /\ is_JSON text).
  { exists (stringify requestPayload). split.
    - now apply body_text_encode.
    - exact (is_JSON_stringify _ Hpayload). }
  destruct (negb (truthy_opt model) || negb (truthy_opt messages)); [intros []|].
  destruct (negb (truthy (sendRequest _ runtime requestPayload)));
    [intros [<- | []]; exact Hfirst|].
  destruct (negb (is_empty (callbackUrl (config runtime))));
    [|intros [<- | []]; exact Hfirst].
  intros [<- | [<- | []]]; [exact Hfirst|].
  eexists. split.
  - now apply body_text_encode.
  - apply is_JSON_stringify. cbn [well_formed].
    rewrite interpretResponse_well_formed; [reflexivity|].
    apply sendRequest_well_formed.
Qed.

Lemma outbound_bodies_are_JSON_witness :
  exists text,
    body_text
      (callback_request "https://example.org/callback"
         (JObj [("llm_response", JObj [("raw_response", JStr "hold")]);
                ("timestamp", JStr "2025-01-01T00:00:00.000Z")]) None)
    = Some text
    /\ is_JSON text.
Proof.
  apply (outbound_bodies_are_JSON
           (example_runtime "https://example.org/callback"
              [route (respond 200 (completion_body "hold")) (respond 500 "down")])
           (payload_of good_payload)
           (Call_sendToServer "https://example.org/callback"
              (JObj [("llm_response", JObj [("raw_response", JStr "hold")]);
                     ("timestamp", JStr "2025-01-01T00:00:00.000Z")]))).
  vm_compute. right. left. reflexivity.
Defined.

(** X22.  With a callback URL configured, whatever the handler returns
    is a JSON text: the missing-data error, the gateway-failure error
    or the summary [{llm_response, server_callback}], whose two parts
    were read from JSON or built from texts. *)
Theorem returned_text_is_JSON (runtime : Runtime Config)
    (payload : HTTPPayload) (result : JSValue) :
  is_empty (callbackUrl (config runtime)) = false ->
  snd (onHttpTrigger runtime payload) = inr result ->
  exists text, result = JStr text /\ is_JSON text.
Proof.
  intros Hurl.
  destruct (decodeJson (input payload)) as [e|requestPayload] eqn:Hdecode.
  { now rewrite (onHttpTrigger_raises_decode _ _ _ Hdecode). }
  destruct (get requestPayload "model") as [e|model] eqn:Hmodel.
  { now rewrite (onHttpTrigger_raises_get _ _ _ _ Hdecode Hmodel). }
  destruct (ToString_opt model) as [e|line] eqn:Hline.
  { now rewrite (onHttpTrigger_raises_log _ _ _ _ _ Hdecode Hmodel Hline). }
  destruct (get_succeeds _ _ "messages" _ Hmodel) as [messages Hmessages].
  rewrite (onHttpTrigger_decoded _ _ _ _ _ _ Hdecode Hmodel Hline Hmessages).
  cbv zeta. rewrite Hurl. cbn [negb].
  destruct (negb (truthy_opt model) || negb (truthy_opt messages)).
  { cbn [snd]. intro H. assert (Hr : result = missing_data_error) by congruence.
    rewrite Hr. unfold missing_data_error. eexists. split; [reflexivity|].
    now apply is_JSON_stringify. }
  destruct (negb (truthy (sendRequest _ runtime requestPayload))).
  { cbn [snd]. intro H. assert (Hr : result = llm_failure_error) by congruence.
    rewrite Hr. unfold llm_failure_error. eexists. split; [reflexivity|].
    now apply is_JSON_stringify. }
  cbn [snd]. intro H. apply (f_equal (fun r => match r with
                                               | inr v => v
                                               | inl _ => result
                                               end)) in H.
  rewrite <- H. eexists. split; [reflexivity|].
  apply is_JSON_stringify. cbn [well_formed].
  rewrite interpretResponse_well_formed by apply sendRequest_well_formed.
  now rewrite sendToServer_well_formed.
Qed.

Lemma returned_text_is_JSON_witness :
  exists text,
    JStr (stringify
            (JObj [("llm_response", JObj [("raw_response", JStr "hold")]);
                   ("server_callback", forward_failed "HTTP 500: down")]))
    = JStr text
    /\ is_JSON text.
Proof.
  apply (returned_text_is_JSON
           (example_runtime "https://example.org/callback"
              [route (respond 200 (completion_body "hold")) (respond 500 "down")])
           (payload_of good_payload)).
  - reflexivity.
  - vm_compute. reflexivity.
Defined.

End ReadableRuns.
